(** * Axora Enigma: session history, context assembly and provider routing

    A shallow embedding of [services/historyService], [services/geminiService]
    and the session initialisation of [App.handleSendMessage], with the
    properties the specification states about them.

    Conventions.
    - JavaScript numbers that hold timestamps, lengths and indices are [Z].
    - Strings are [string]; one [ascii] stands for one UTF-16 code unit.
    - Code that reads the clock, touches [localStorage], logs or may throw
      lives in the monad [M], whose state survives an exception (as the
      JavaScript heap does).
    - Library functions the repository only calls ([JSON.stringify] with
      indentation, [toLocaleString], the GenAI SDK) are parameters. *)

From Stdlib Require Import String Ascii List ZArith Lia Bool Arith.
From Stdlib Require Import Sorting.Sorted Sorting.Permutation.
From Stdlib Require Import DecimalString.
Import ListNotations.

Local Open Scope string_scope.
Local Open Scope list_scope.
Local Open Scope Z_scope.

(* ================================================================== *)
(** * JavaScript primitives used by the sources                        *)
(* ================================================================== *)

Module JS.

(** Thrown values: [Error] objects with a name and a message. *)
Record exn := Exn { exn_name : string; message : string }.

Definition TypeError (m : string) : exn := Exn "TypeError" m.
Definition SyntaxError (m : string) : exn := Exn "SyntaxError" m.

(** Truthiness of a string: every string but the empty one. *)
Definition truthy (s : string) : bool := negb (s =? "")%string.

(** Truthiness of an optional string ([undefined]/[null] are falsy). *)
Definition truthy_opt (o : option string) : bool :=
  match o with Some s => truthy s | None => false end.

(** [a || b] on an optional string with a string default. *)
Definition or_else (o : option string) (d : string) : string :=
  match o with
  | Some s => if truthy s then s else d
  | None => d
  end.

(** [String(n)] for an integral number. *)
Definition toString (n : Z) : string := NilZero.string_of_int (Z.to_int n).

Definition is_lower (c : ascii) : bool :=
  let n := nat_of_ascii c in (97 <=? n)%nat && (n <=? 122)%nat.
Definition is_upper (c : ascii) : bool :=
  let n := nat_of_ascii c in (65 <=? n)%nat && (n <=? 90)%nat.
Definition is_digit (c : ascii) : bool :=
  let n := nat_of_ascii c in (48 <=? n)%nat && (n <=? 57)%nat.

Definition upper_char (c : ascii) : ascii :=
  if is_lower c then ascii_of_nat (nat_of_ascii c - 32) else c.
Definition lower_char (c : ascii) : ascii :=
  if is_upper c then ascii_of_nat (nat_of_ascii c + 32) else c.

Fixpoint map_chars (f : ascii -> ascii) (s : string) : string :=
  match s with
  | EmptyString => EmptyString
  | String c r => String (f c) (map_chars f r)
  end.

Definition toUpperCase : string -> string := map_chars upper_char.
Definition toLowerCase : string -> string := map_chars lower_char.

(** [s.length] *)
Definition strlen (s : string) : Z := Z.of_nat (String.length s).

(** [s.substring(0, n)] for [0 <= n]. *)
Definition substring0 (n : Z) (s : string) : string :=
  String.substring 0 (Z.to_nat n) s.

(** [s.includes(sub)] *)
Fixpoint includes (sub s : string) : bool :=
  if String.prefix sub s then true
  else match s with
       | EmptyString => false
       | String _ r => includes sub r
       end.

(** [arr.findIndex(p)]: the first index whose element satisfies [p],
    [-1] when there is none. *)
Fixpoint findIndex {A} (p : A -> bool) (l : list A) : Z :=
  match l with
  | [] => -1
  | x :: r =>
      if p x then 0
      else let i := findIndex p r in if i <? 0 then -1 else i + 1
  end.

(** [arr[i] = x] for an index inside the array (the only use in the
    sources: the index comes from [findIndex]). *)
Fixpoint assign {A} (l : list A) (i : nat) (x : A) : list A :=
  match l, i with
  | [], _ => []
  | _ :: r, O => x :: r
  | y :: r, S j => y :: assign r j x
  end.

(** [arr.sort(cmp)].  ECMAScript requires the sort to be stable; for a
    consistent comparator the result is then determined: [a] is placed
    before [b] when [cmp a b < 0], after it when [cmp a b > 0], and the
    two keep their order when [cmp a b = 0]. *)
Fixpoint sort_insert {A} (cmp : A -> A -> Z) (x : A) (l : list A) : list A :=
  match l with
  | [] => [x]
  | y :: r => if cmp x y <=? 0 then x :: y :: r else y :: sort_insert cmp x r
  end.

Definition sort {A} (cmp : A -> A -> Z) (l : list A) : list A :=
  fold_right (sort_insert cmp) [] l.

End JS.

(** [contains sub s]: [sub] occurs in [s]. *)
Definition contains (sub s : string) : Prop :=
  exists pre post, s = (pre ++ sub ++ post)%string.

(* ================================================================== *)
(** * The state-and-exception monad                                    *)
(* ================================================================== *)

(** A computation over a world [W]: it ends with a value or a thrown
    exception, and in both cases with the world it left behind. *)
Definition M (W A : Type) : Type := W -> (JS.exn + A) * W.

Definition ret {W A} (a : A) : M W A := fun w => (inr a, w).

Definition bind {W A B} (c : M W A) (k : A -> M W B) : M W B :=
  fun w =>
    match c w with
    | (inl e, w') => (inl e, w')
    | (inr a, w') => k a w'
    end.

Definition throw {W A} (e : JS.exn) : M W A := fun w => (inl e, w).

(** [try { body } catch (e) { handler e }] *)
Definition try_catch {W A} (body : M W A) (handler : JS.exn -> M W A) : M W A :=
  fun w =>
    match body w with
    | (inl e, w') => handler e w'
    | (inr a, w') => (inr a, w')
    end.

(** Lifting a fallible pure step (a library call that may throw). *)
Definition lift {W A} (r : JS.exn + A) : M W A := fun w => (r, w).

Declare Scope js_scope.
Delimit Scope js_scope with js.
Notation "x <- c ;; k" := (bind c (fun x => k))
  (at level 100, c at next level, right associativity) : js_scope.
Notation "c ;;; k" := (bind c (fun _ => k))
  (at level 100, right associativity) : js_scope.

(** A run [c w] is a pair: [fst] is the outcome ([inr v] for a normal
    return of [v], [inl e] for a thrown [e]) and [snd] the world left. *)

(* ================================================================== *)
(** * Data model ([types.ts])                                          *)
(* ================================================================== *)

Inductive Role := USER | MODEL | SYSTEM.

Definition Role_value (r : Role) : string :=
  match r with USER => "user" | MODEL => "model" | SYSTEM => "system" end.

Inductive MessageType := TEXT | IMAGE | ERROR.

Record Attachment := {
  att_type : string;
  att_data : string;
  att_name : string
}.

(** The part of the grounding payload the sources read:
    [groundingMetadata?.groundingChunks], each chunk with [web?.uri] and
    [web?.title]. *)
Record WebSource := { uri : option string; web_title : option string }.
Record GroundingChunk := { web : option WebSource }.
Record GroundingMetadata := { groundingChunks : option (list GroundingChunk) }.

Record Message := {
  msg_id : string;
  role : Role;
  content : string;
  msg_type : MessageType;
  timestamp : Z;
  attachments : option (list Attachment);
  groundingMetadata : option GroundingMetadata
}.

Inductive ModeType := GENERAL | LANDING_PAGE | EBOOK | IMAGE_GEN | MARKET_RESEARCH.

Definition ModeType_value (m : ModeType) : string :=
  match m with
  | GENERAL => "General"
  | LANDING_PAGE => "Landing Page Creator"
  | EBOOK => "Ebook Architect"
  | IMAGE_GEN => "Visual Studio"
  | MARKET_RESEARCH => "Market Research"
  end.

Definition ModeType_eqb (a b : ModeType) : bool :=
  match a, b with
  | GENERAL, GENERAL | LANDING_PAGE, LANDING_PAGE | EBOOK, EBOOK
  | IMAGE_GEN, IMAGE_GEN | MARKET_RESEARCH, MARKET_RESEARCH => true
  | _, _ => false
  end.

Inductive APIProvider := GEMINI | DEEPSEEK | FAL_AI | TAVILY.

Definition APIProvider_value (p : APIProvider) : string :=
  match p with
  | GEMINI => "Gemini 2.5"
  | DEEPSEEK => "Deepseek R1"
  | FAL_AI => "Fal.ai (Nano Banana)"
  | TAVILY => "Tavily Search"
  end.

Record ChatSession := {
  id : string;
  title : string;
  lastModified : Z;
  messages : list Message;
  modeId : ModeType;
  projectId : option string
}.

(** [{ ...session, lastModified: t }] *)
Definition with_lastModified (s : ChatSession) (t : Z) : ChatSession :=
  {| id := id s; title := title s; lastModified := t;
     messages := messages s; modeId := modeId s; projectId := projectId s |}.

(* ================================================================== *)
(** * Session store and exporter ([services/historyService])           *)
(* ================================================================== *)

Module History.

Definition STORAGE_KEY : string := "axora_history_v1".
Definition RETENTION_MS : Z := 10 * 24 * 60 * 60 * 1000.

(** What a [localStorage] entry can hold, by what [loadSessions] makes
    of it: the empty string; text that [JSON.parse] rejects; JSON text of
    a value on which the [filter] step throws a [TypeError] (no array:
    [null], a number, a string, an object; or an array with a [null]
    element); and the JSON text of an array of sessions, which is all
    the application ever writes.  [setItem] is taken not to throw. *)
Inductive item :=
| EmptyText
| NotJSON (why : string)
| NotArray (why : string)
| SessionsJSON (l : list ChatSession).

(** The value [JSON.parse] returns on an entry. *)
Inductive parsed :=
| PArray (l : list ChatSession)
| POther (why : string).

Definition JSON_parse (raw : option item) : JS.exn + parsed :=
  match raw with
  | None => inr (POther "Cannot read properties of null (reading 'filter')")
  | Some EmptyText => inl (JS.SyntaxError "Unexpected end of JSON input")
  | Some (NotJSON why) => inl (JS.SyntaxError why)
  | Some (NotArray why) => inr (POther why)
  | Some (SessionsJSON l) => inr (PArray l)
  end.

Definition JSON_stringify (l : list ChatSession) : item := SessionsJSON l.

(** The browser as the store sees it: [localStorage], the clock behind
    [Date.now()] (its successive readings and how many were taken), the
    error console, and the files handed to the user. *)
Record world := {
  localStorage : string -> option item;
  clock : nat -> Z;
  reads : nat;
  console : list (string * JS.exn);
  downloads : list (string * string)
}.

Definition getItem (key : string) : M world (option item) :=
  fun w => (inr (localStorage w key), w).

Definition setItem (key : string) (v : item) : M world unit :=
  fun w =>
    (inr tt,
     {| localStorage := fun k => if (k =? key)%string then Some v else localStorage w k;
        clock := clock w; reads := reads w;
        console := console w; downloads := downloads w |}).

Definition Date_now : M world Z :=
  fun w =>
    (inr (clock w (reads w)),
     {| localStorage := localStorage w;
        clock := clock w; reads := S (reads w);
        console := console w; downloads := downloads w |}).

Definition console_error (label : string) (e : JS.exn) : M world unit :=
  fun w =>
    (inr tt,
     {| localStorage := localStorage w;
        clock := clock w; reads := reads w;
        console := console w ++ [(label, e)]; downloads := downloads w |}).

Definition emit_file (name text : string) : M world unit :=
  fun w =>
    (inr tt,
     {| localStorage := localStorage w;
        clock := clock w; reads := reads w;
        console := console w; downloads := downloads w ++ [(name, text)] |}).

(** [!raw] *)
Definition falsy_item (raw : option item) : bool :=
  match raw with
  | None | Some EmptyText => true
  | Some _ => false
  end.

Local Open Scope js_scope.

Definition loadSessions : M world (list ChatSession) :=
  try_catch
    (raw <- getItem STORAGE_KEY ;;
     if falsy_item raw then ret [] else
     sessions <- lift (JSON_parse raw) ;;
     now <- Date_now ;;
     match sessions with
     | POther why => throw (JS.TypeError why)
     | PArray sessions =>
         let validSessions :=
           filter (fun s => now - lastModified s <? RETENTION_MS) sessions in
         (if negb (Z.of_nat (length validSessions) =? Z.of_nat (length sessions))
          then setItem STORAGE_KEY (JSON_stringify validSessions)
          else ret tt) ;;;
         ret (JS.sort (fun a b => lastModified b - lastModified a) validSessions)
     end)
    (fun e => console_error "Failed to load history:" e ;;; ret []).

Definition saveSession (session : ChatSession) : M world (list ChatSession) :=
  sessions <- loadSessions ;;
  let index := JS.findIndex (fun s => (id s =? id session)%string) sessions in
  now <- Date_now ;;
  let updatedSession := with_lastModified session now in
  let sessions :=
    if index >=? 0 then JS.assign sessions (Z.to_nat index) updatedSession
    else updatedSession :: sessions in
  setItem STORAGE_KEY (JSON_stringify sessions) ;;;
  ret sessions.

Definition deleteSession (id' : string) : M world (list ChatSession) :=
  sessions <- loadSessions ;;
  let filtered := filter (fun s => negb (id s =? id')%string) sessions in
  setItem STORAGE_KEY (JSON_stringify filtered) ;;;
  ret filtered.

(** Locale-dependent date formatting, supplied by the browser. *)
Record Locale := {
  toLocaleString : Z -> string;
  toLocaleTimeString : Z -> string
}.

Definition NL : string := String (ascii_of_nat 10) EmptyString.

(** [arr.forEach((x, i) => ...)] updating one accumulated variable. *)
Fixpoint forEach {A S} (f : S -> A -> Z -> S) (l : list A) (i : Z) (s : S) : S :=
  match l with
  | [] => s
  | x :: r => forEach f r (i + 1) (f s x i)
  end.

(** [chunk.web?.uri] *)
Definition chunk_uri (chunk : GroundingChunk) : option string :=
  match web chunk with
  | Some w => uri w
  | None => None
  end.

(** The text [downloadSessionAsTxt] accumulates in its variable
    [content] (called [text] here, [content] being a field of
    [Message]). *)
Definition sessionLog (L : Locale) (session : ChatSession) : string :=
  (let date := toLocaleString L (lastModified session) in
   let text := "========================================" ++ NL in
   let text := text ++ "AXORA ENIGMA SYSTEM - SESSION LOG" ++ NL in
   let text := text ++ "========================================" ++ NL in
   let text := text ++ "SESSION ID: " ++ id session ++ NL in
   let text := text ++ "TITLE:      " ++ title session ++ NL in
   let text := text ++ "DATE:       " ++ date ++ NL in
   let text := text ++ "MODE:       " ++ ModeType_value (modeId session) ++ NL in
   let text := text ++ "PROJECT:    " ++ JS.or_else (projectId session) "None" ++ NL in
   let text := text ++ "========================================" ++ NL ++ NL in
   forEach
     (fun text msg _ =>
        let role := JS.toUpperCase (Role_value (role msg)) in
        let time := toLocaleTimeString L (timestamp msg) in
        let text := text ++ "[" ++ time ++ "] " ++ role ++ ":" ++ NL in
        let text := text ++ content msg ++ NL in
        let text :=
          match attachments msg with
          | Some atts =>
              if Z.of_nat (length atts) >? 0
              then text ++ "[Attached " ++ JS.toString (Z.of_nat (length atts))
                        ++ " file(s)]" ++ NL
              else text
          | None => text
          end in
        let text :=
          match groundingMetadata msg with
          | Some {| groundingChunks := Some chunks |} =>
              let text := text ++ NL ++ "[Sources Used]:" ++ NL in
              forEach
                (fun text chunk i =>
                   if JS.truthy_opt (chunk_uri chunk)
                   then text ++ "   " ++ JS.toString (i + 1) ++ ". "
                             ++ JS.or_else (chunk_uri chunk) "" ++ NL
                   else text)
                chunks 0 text
          | _ => text
          end in
        text ++ NL ++ "----------------------------------------" ++ NL ++ NL)
     (messages session) 0 text)%string.

(** [title.replace(/[^a-z0-9]/gi, '_')] *)
Definition sanitize : string -> string :=
  JS.map_chars (fun c => if JS.is_lower c || JS.is_upper c || JS.is_digit c
                         then c else "_"%char).

Definition downloadSessionAsTxt (L : Locale) (session : option ChatSession)
  : M world unit :=
  match session with
  | None => ret tt
  | Some session =>
      let content := sessionLog L session in
      now <- Date_now ;;
      emit_file ("axora_log_" ++ JS.toLowerCase (sanitize (title session))
                 ++ "_" ++ JS.toString now ++ ".txt")%string content
  end.

End History.

(* ================================================================== *)
(** * Context assembler and provider router ([services/geminiService]) *)
(* ================================================================== *)

Module Gemini.

(** Structured payloads ([data?: any], [keyFacts]) as JSON documents. *)
#[local] Unset Elimination Schemes.
Inductive json :=
| JNull
| JBool (b : bool)
| JNum (n : Z)
| JStr (s : string)
| JArr (l : list json)
| JObj (l : list (string * json)).
#[local] Set Elimination Schemes.

(** Truthiness of a JSON document. *)
Definition truthy_json (v : json) : bool :=
  match v with
  | JNull => false
  | JBool b => b
  | JNum n => negb (n =? 0)
  | JStr s => JS.truthy s
  | JArr _ | JObj _ => true
  end.

Record ModeMemory := {
  lastState : option string;
  specificInstructions : option string;
  data : option json
}.

Record SharedContext := {
  summary : string;
  keyFacts : list (string * string)
}.

(** [modeContext] is a partial record over the five mode ids. *)
Record ProjectMemory := {
  sharedContext : SharedContext;
  modeContext : ModeType -> option ModeMemory
}.

Record Project := {
  project_id : string;
  project_name : string;
  project_description : string;
  memory : ProjectMemory
}.

Inductive Capability := cap_text | cap_image | cap_search.

Record Mode := {
  mode_id : ModeType;
  mode_name : string;
  mode_description : string;
  systemPrompt : string;
  provider : APIProvider;
  capabilities : list Capability
}.

Definition NL : string := History.NL.

Definition keyFacts_json (kf : list (string * string)) : json :=
  JObj (map (fun kv => (fst kv, JStr (snd kv))) kf).

Section Assembler.

(** [JSON.stringify(v, null, 2)] on a JSON document. *)
Variable stringify2 : json -> string.

Definition constructContextualSystemPrompt (mode : Mode) (project : option Project)
  : string :=
  (let instruction :=
     "You are running in mode: " ++ mode_name mode ++ " ("
       ++ APIProvider_value (provider mode) ++ ")." ++ NL ++ systemPrompt mode in
   match project with
   | None => instruction
   | Some project =>
       let instruction := instruction ++ NL ++ NL ++ "=== 🗂️ ACTIVE PROJECT: "
                            ++ project_name project ++ " ===" ++ NL in
       let instruction := instruction ++ "Description: "
                            ++ project_description project ++ NL in
       let instruction := instruction ++ NL
                            ++ "--- 🌐 SHARED MEMORY (Visible to all modes) ---" ++ NL in
       let instruction := instruction ++ "Summary: "
                            ++ summary (sharedContext (memory project)) ++ NL in
       let instruction := instruction ++ "Key Facts: "
                            ++ stringify2 (keyFacts_json
                                 (keyFacts (sharedContext (memory project)))) ++ NL in
       let privateMem := modeContext (memory project) (mode_id mode) in
       let instruction :=
         match privateMem with
         | Some privateMem =>
             let instruction := instruction ++ NL
                   ++ "--- 🔒 MODE MEMORY (Visible only to " ++ mode_name mode
                   ++ ") ---" ++ NL in
             let instruction :=
               if JS.truthy_opt (specificInstructions privateMem)
               then instruction ++ "Specific Instructions: "
                      ++ JS.or_else (specificInstructions privateMem) "" ++ NL
               else instruction in
             let instruction :=
               match data privateMem with
               | Some d =>
                   if truthy_json d
                   then instruction ++ "Structured Data: " ++ stringify2 d ++ NL
                   else instruction
               | None => instruction
               end in
             let instruction :=
               if JS.truthy_opt (lastState privateMem)
               then instruction ++ "Last Known State: "
                      ++ JS.or_else (lastState privateMem) "" ++ NL
               else instruction in
             instruction
         | None =>
             instruction ++ NL ++ "(No specific memory exists for this mode yet)" ++ NL
         end in
       instruction ++ NL ++ "Use this structured context to inform your response. Do not hallucinate details not in memory."
   end)%string.

End Assembler.

(** ** The GenAI SDK, as the router uses it *)

Inductive Part :=
| TextPart (text : string)
| InlinePart (mimeType data : string).

(** [contents]: a plain string, or [{ role?, parts }]. *)
Inductive Contents :=
| Plain (text : string)
| Parts (role : option string) (parts : list Part).

Record Config := {
  imageConfig_aspectRatio : option string;
  systemInstruction : option string;
  tools_googleSearch : bool;
  thinkingBudget : option Z
}.

Record GenerateParams := {
  gen_model : string;
  gen_contents : Contents;
  gen_config : Config
}.

Record HistoryEntry := { h_role : string; h_text : string }.

Record ChatParams := {
  chat_model : string;
  chat_history : list HistoryEntry;
  chat_config : Config
}.

Record InlineData := { inline_data : string }.
Record ResponsePart := { inlineData : option InlineData; part_text : option string }.
Record ResponseContent := { parts : option (list ResponsePart) }.
Record Candidate := {
  cand_content : option ResponseContent;
  cand_groundingMetadata : option GroundingMetadata
}.
Record Response := {
  candidates : option (list Candidate);
  text : option string
}.

(** A client object: what each of its three methods does when called.
    Every call may throw. *)
Record Client := {
  models_generateContent : GenerateParams -> JS.exn + Response;
  chats_create : ChatParams -> JS.exn + unit;
  chat_sendMessage : ChatParams -> string -> JS.exn + Response
}.

Inductive request :=
| ReqGenerate (p : GenerateParams)
| ReqCreate (p : ChatParams)
| ReqSend (chat : ChatParams) (message : string).

(** The router's world: the SDK calls issued so far, each with the
    exception it threw if it threw, and the error console. *)
Record net := {
  calls : list (request * option JS.exn);
  console : list (string * JS.exn)
}.

Definition thrown {A} (r : JS.exn + A) : option JS.exn :=
  match r with inl e => Some e | inr _ => None end.

Definition call {A} (q : request) (r : JS.exn + A) : M net A :=
  fun w => (r, {| calls := calls w ++ [(q, thrown r)]; console := console w |}).

Definition console_error (label : string) (e : JS.exn) : M net unit :=
  fun w => (inr tt, {| calls := calls w; console := console w ++ [(label, e)] |}).

Record ImageSettings := { aspectRatio : string; format : string }.

Record Result := {
  res_text : string;
  res_images : option (list string);
  res_groundingMetadata : option GroundingMetadata
}.

Definition text_only (t : string) : Result :=
  {| res_text := t; res_images := None; res_groundingMetadata := None |}.

(** [history.map(msg => ({ role: ..., parts: [{ text: msg.content }] }))] *)
Definition chatHistory_of (history : list Message) : list HistoryEntry :=
  map (fun msg : Message =>
         {| h_role := match role msg with USER => "user" | _ => "model" end;
            h_text := content msg |})
      history.

Local Open Scope js_scope.

Section Router.

Variable stringify2 : json -> string.

(** [process.env.API_KEY] *)
Variable API_KEY : option string.

(** [new GoogleGenAI({ apiKey })] *)
Variable GoogleGenAI : string -> Client.

Definition sendMessageToGemini
    (history : list Message) (mode : Mode) (project : option Project)
    (newMessage : string) (attachments : list (string * string))
    (imageSettings : option ImageSettings) : M net Result :=
  if negb (JS.truthy_opt API_KEY) then
    ret (text_only
           "Error: No API Key found. Please set REACT_APP_API_KEY or process.env.API_KEY.")
  else
  let ai := GoogleGenAI (JS.or_else API_KEY "") in
  let systemInstruction := constructContextualSystemPrompt stringify2 mode project in
  try_catch
    (match provider mode with
     | FAL_AI =>
         let aspectRatio := JS.or_else (option_map aspectRatio imageSettings) "1:1" in
         let params :=
           {| gen_model := "gemini-2.5-flash-image";
              gen_contents := Parts None [TextPart newMessage];
              gen_config :=
                {| imageConfig_aspectRatio := Some aspectRatio;
                   systemInstruction := None;
                   tools_googleSearch := false; thinkingBudget := None |} |} in
         response <- call (ReqGenerate params) (models_generateContent ai params) ;;
         let images : list string := [] in
         let textResponse :=
           ("Generated with Fal.ai (Nano Banana Pro emulation) in "
              ++ aspectRatio ++ " ratio:")%string in
         st <- match candidates response with
               | None => ret (images, textResponse)
               | Some [] =>
                   throw (JS.TypeError
                            "Cannot read properties of undefined (reading 'content')")
               | Some (c0 :: _) =>
                   match cand_content c0 with
                   | None =>
                       throw (JS.TypeError
                                "Cannot read properties of undefined (reading 'parts')")
                   | Some c =>
                       match parts c with
                       | None => ret (images, textResponse)
                       | Some ps =>
                           ret (fold_left
                                  (fun st part =>
                                     match inlineData part with
                                     | Some d =>
                                         (fst st ++
                                            [("data:"
                                                ++ JS.or_else (option_map format imageSettings)
                                                     "image/png"
                                                ++ ";base64," ++ inline_data d)%string],
                                          snd st)
                                     | None =>
                                         if JS.truthy_opt (part_text part)
                                         then (fst st, JS.or_else (part_text part) "")
                                         else st
                                     end)
                                  ps (images, textResponse))
                       end
                   end
               end ;;
         ret {| res_text := snd st; res_images := Some (fst st);
                res_groundingMetadata := None |}
     | TAVILY =>
         let params :=
           {| gen_model := "gemini-2.5-flash";
              gen_contents := Plain newMessage;
              gen_config :=
                {| imageConfig_aspectRatio := None;
                   systemInstruction := Some systemInstruction;
                   tools_googleSearch := true; thinkingBudget := None |} |} in
         response <- call (ReqGenerate params) (models_generateContent ai params) ;;
         ret {| res_text := JS.or_else (text response)
                              "No results found via Research API.";
                res_images := None;
                res_groundingMetadata :=
                  match candidates response with
                  | Some (c0 :: _) => cand_groundingMetadata c0
                  | _ => None
                  end |}
     | DEEPSEEK =>
         let chatHistory := chatHistory_of history in
         let chat :=
           {| chat_model := "gemini-3-pro-preview";
              chat_history := chatHistory;
              chat_config :=
                {| imageConfig_aspectRatio := None;
                   systemInstruction := Some systemInstruction;
                   tools_googleSearch := false; thinkingBudget := Some 1024 |} |} in
         call (ReqCreate chat) (chats_create ai chat) ;;;
         result <- call (ReqSend chat newMessage) (chat_sendMessage ai chat newMessage) ;;
         ret (text_only (JS.or_else (text result) ""))
     | GEMINI =>
         let chatHistory := chatHistory_of history in
         let chat :=
           {| chat_model := "gemini-2.5-flash";
              chat_history := chatHistory;
              chat_config :=
                {| imageConfig_aspectRatio := None;
                   systemInstruction := Some systemInstruction;
                   tools_googleSearch := false; thinkingBudget := None |} |} in
         call (ReqCreate chat) (chats_create ai chat) ;;;
         if Z.of_nat (length attachments) >? 0 then
           let parts :=
             map (fun att => InlinePart (fst att) (snd att)) attachments
               ++ [TextPart newMessage] in
           let params :=
             {| gen_model := "gemini-2.5-flash";
                gen_contents := Parts (Some "user") parts;
                gen_config :=
                  {| imageConfig_aspectRatio := None;
                     systemInstruction := Some systemInstruction;
                     tools_googleSearch := false; thinkingBudget := None |} |} in
           response <- call (ReqGenerate params) (models_generateContent ai params) ;;
           ret (text_only (JS.or_else (text response) ""))
         else
           result <- call (ReqSend chat newMessage) (chat_sendMessage ai chat newMessage) ;;
           ret (text_only (JS.or_else (text result) ""))
     end)
    (fun error =>
       console_error "API Gateway Error:" error ;;;
       ret (text_only ("System Error (" ++ APIProvider_value (provider mode) ++ "): "
                         ++ JS.message error)%string)).

End Router.

End Gemini.

(* ================================================================== *)
(** * Session initialisation ([App.handleSendMessage], step 1)         *)
(* ================================================================== *)

Module App.

Import History Gemini.
Local Open Scope js_scope.

(** The component state the step reads and sets. *)
Record state := {
  currentMode : Mode;
  currentProject : option Project;
  sessions : list ChatSession;
  currentSessionId : option string
}.

(** [text.length > 30 ? text.substring(0, 30) + '...' : text] *)
Definition newTitle (text : string) : string :=
  if JS.strlen text >? 30 then (JS.substring0 30 text ++ "...")%string else text.

(** [currentProject?.id || null] *)
Definition projectId_of (p : option Project) : option string :=
  match p with
  | Some p => if JS.truthy (project_id p) then Some (project_id p) else None
  | None => None
  end.

(** Step 1 of [handleSendMessage]: when no session is current, create
    one from the first message text, save it and make it current.  The
    result carries the new session when one was created. *)
Definition handleSendMessage_init (text : string) (st : state)
  : M world (state * option ChatSession) :=
  if negb (JS.truthy_opt (currentSessionId st)) then
    now <- Date_now ;;
    let newId := JS.toString now in
    now' <- Date_now ;;
    let newSession :=
      {| id := newId;
         title := newTitle text;
         lastModified := now';
         messages := [];
         modeId := mode_id (currentMode st);
         projectId := projectId_of (currentProject st) |} in
    updatedSessions <- saveSession newSession ;;
    ret ({| currentMode := currentMode st;
            currentProject := currentProject st;
            sessions := updatedSessions;
            currentSessionId := Some newId |}, Some newSession)
  else ret (st, None).

End App.

(* ================================================================== *)
(** * Observations used by the statements                              *)
(* ================================================================== *)

Module Obs.

Import History.

(** The entry under the history key. *)
Definition stored (w : world) : option item := localStorage w STORAGE_KEY.

(** The sessions an entry holds (none when it is missing or unreadable). *)
Definition sessions_of (it : option item) : list ChatSession :=
  match it with
  | Some (SessionsJSON l) => l
  | _ => []
  end.

(** The entry cannot be read as an array of sessions. *)
Definition unreadable (it : option item) : bool :=
  match it with
  | Some (SessionsJSON _) => false
  | _ => true
  end.

(** [s] is within the retention window at time [now]. *)
Definition retained (now : Z) (s : ChatSession) : bool :=
  now - lastModified s <? RETENTION_MS.

(** Newest first. *)
Definition newer_or_equal (a b : ChatSession) : Prop :=
  lastModified a >= lastModified b.

(** The sessions of [l] stamped [t], in the order they have in [l]. *)
Definition stamped (t : Z) (l : list ChatSession) : list ChatSession :=
  filter (fun s => lastModified s =? t) l.

(** How many sessions of [l] carry the id [i]. *)
Definition count_id (i : string) (l : list ChatSession) : nat :=
  length (filter (fun s => (id s =? i)%string) l).

(** The list [save] builds from the loaded list [l0]: the session
    stamped [now] replaces the first entry with its id where it stands,
    or goes to the front when there is none. *)
Definition upserted (l0 : list ChatSession) (s : ChatSession) (now : Z)
  : list ChatSession :=
  let index := JS.findIndex (fun x => (id x =? id s)%string) l0 in
  if index >=? 0 then JS.assign l0 (Z.to_nat index) (with_lastModified s now)
  else with_lastModified s now :: l0.

(** The text the router answers with when a call threw [e]. *)
Definition system_error (mode : Gemini.Mode) (e : JS.exn) : string :=
  ("System Error (" ++ APIProvider_value (Gemini.provider mode) ++ "): "
     ++ JS.message e)%string.

(** Successive clock readings never decrease. *)
Definition monotone (c : nat -> Z) : Prop :=
  forall i j, (i <= j)%nat -> c i <= c j.

(** Two sessions agree on every field but [lastModified]. *)
Definition same_but_stamp (a b : ChatSession) : Prop :=
  id a = id b /\ title a = title b /\ messages a = messages b /\
  modeId a = modeId b /\ projectId a = projectId b.

End Obs.

(* ================================================================== *)
(** * The transcript layout and the project relation of the statements *)
(* ================================================================== *)

Module Layout.

Import History.

Definition str_concat (l : list string) : string :=
  fold_right String.append ""%string l.

(** The elements of [l] paired with their positions, counted from [i]. *)
Fixpoint number_from {A} (i : Z) (l : list A) : list (Z * A) :=
  match l with
  | [] => []
  | x :: r => (i, x) :: number_from (i + 1) r
  end.

Definition ROLE (r : Role) : string :=
  match r with USER => "USER" | MODEL => "MODEL" | SYSTEM => "SYSTEM" end.

Definition header (L : Locale) (s : ChatSession) : string :=
  ("========================================" ++ NL
   ++ "AXORA ENIGMA SYSTEM - SESSION LOG" ++ NL
   ++ "========================================" ++ NL
   ++ "SESSION ID: " ++ id s ++ NL
   ++ "TITLE:      " ++ title s ++ NL
   ++ "DATE:       " ++ toLocaleString L (lastModified s) ++ NL
   ++ "MODE:       " ++ ModeType_value (modeId s) ++ NL
   ++ "PROJECT:    " ++ JS.or_else (projectId s) "None" ++ NL
   ++ "========================================" ++ NL ++ NL)%string.

(** The line that opens a message: time in brackets, role in capitals. *)
Definition role_line (L : Locale) (m : Message) : string :=
  ("[" ++ toLocaleTimeString L (timestamp m) ++ "] " ++ ROLE (role m) ++ ":" ++ NL)%string.

Definition attachment_note (m : Message) : string :=
  match attachments m with
  | Some ((_ :: _) as atts) =>
      ("[Attached " ++ JS.toString (Z.of_nat (length atts)) ++ " file(s)]" ++ NL)%string
  | _ => ""%string
  end.

(** One numbered source. *)
Definition source_line (number : Z) (u : string) : string :=
  ("   " ++ JS.toString number ++ ". " ++ u ++ NL)%string.

(** The sources of a grounding list: each entry with a non-empty web URI
    under its position in the whole list, counted from 1; entries
    without one give no line. *)
Definition source_lines (chunks : list GroundingChunk) : string :=
  str_concat
    (map (fun p =>
            match chunk_uri (snd p) with
            | Some u => if JS.truthy u then source_line (fst p + 1) u else ""%string
            | None => ""%string
            end)
         (number_from 0 chunks)).

Definition sources_block (m : Message) : string :=
  match groundingMetadata m with
  | Some {| groundingChunks := Some chunks |} =>
      (NL ++ "[Sources Used]:" ++ NL ++ source_lines chunks)%string
  | _ => ""%string
  end.

Definition separator : string :=
  (NL ++ "----------------------------------------" ++ NL ++ NL)%string.

Definition message_block (L : Locale) (m : Message) : string :=
  (role_line L m ++ content m ++ NL ++ attachment_note m ++ sources_block m
   ++ separator)%string.

(** The URIs of the entries that carry a non-empty web URI, in order. *)
Definition web_uris (chunks : list GroundingChunk) : list string :=
  flat_map (fun c => match chunk_uri c with
                     | Some u => if JS.truthy u then [u] else []
                     | None => []
                     end) chunks.

(** Two projects that differ at most in mode-context entries keyed by
    modes other than [m]. *)
Definition differ_only_in_other_modes (m : ModeType) (p1 p2 : Gemini.Project) : Prop :=
  Gemini.project_id p1 = Gemini.project_id p2 /\
  Gemini.project_name p1 = Gemini.project_name p2 /\
  Gemini.project_description p1 = Gemini.project_description p2 /\
  Gemini.sharedContext (Gemini.memory p1) = Gemini.sharedContext (Gemini.memory p2) /\
  Gemini.modeContext (Gemini.memory p1) m = Gemini.modeContext (Gemini.memory p2) m.

End Layout.

(* ================================================================== *)
(** * Concrete stores, sessions and clients                            *)
(* ================================================================== *)

Module Examples.

Import History.

(** A browser whose history entry is [it] and whose clock reads [t0],
    [t0 + step], [t0 + 2 * step], ... *)
Definition browser (it : option item) (t0 step : Z) : world :=
  {| localStorage := fun k => if (k =? STORAGE_KEY)%string then it else None;
     clock := fun n => t0 + step * Z.of_nat n;
     reads := 0; console := []; downloads := [] |}.

Definition session (i : string) (t : Z) : ChatSession :=
  {| id := i; title := i; lastModified := t; messages := [];
     modeId := GENERAL; projectId := None |}.

Definition day : Z := 24 * 60 * 60 * 1000.


(** A client that answers every request with the text [t]. *)
Definition echo_client (t : string) : Gemini.Client :=
  {| Gemini.models_generateContent :=
       fun _ => inr {| Gemini.candidates := None; Gemini.text := Some t |};
     Gemini.chats_create := fun _ => inr tt;
     Gemini.chat_sendMessage :=
       fun _ _ => inr {| Gemini.candidates := None; Gemini.text := Some t |} |}.

Definition quiet : Gemini.net := {| Gemini.calls := []; Gemini.console := [] |}.

Definition mode_of (m : ModeType) (p : APIProvider) : Gemini.Mode :=
  {| Gemini.mode_id := m; Gemini.mode_name := ModeType_value m;
     Gemini.mode_description := ""; Gemini.systemPrompt := "You are Axora.";
     Gemini.provider := p; Gemini.capabilities := [Gemini.cap_text] |}.

(** Two projects that differ only in the entry keyed by [EBOOK]. *)
Definition project_with (ebook_note : string) : Gemini.Project :=
  {| Gemini.project_id := "p1";
     Gemini.project_name := "EcoBrand Launch";
     Gemini.project_description := "Launch campaign";
     Gemini.memory :=
       {| Gemini.sharedContext :=
            {| Gemini.summary := "Sustainable sneakers";
               Gemini.keyFacts := [("Tone", "Urban")] |};
          Gemini.modeContext :=
            fun m =>
              match m with
              | LANDING_PAGE =>
                  Some {| Gemini.lastState := Some "Hero section draft completed.";
                          Gemini.specificInstructions := Some "Focus on minimal aesthetic.";
                          Gemini.data := None |}
              | EBOOK =>
                  Some {| Gemini.lastState := None;
                          Gemini.specificInstructions := Some ebook_note;
                          Gemini.data := Some (Gemini.JStr "outline") |}
              | _ => None
              end |} |}.

Definition locale : Locale :=
  {| toLocaleString := fun t => JS.toString t;
     toLocaleTimeString := fun t => JS.toString t |}.

Definition message (i : string) (r : Role) (text : string) (t : Z)
    (g : option GroundingMetadata) : Message :=
  {| msg_id := i; role := r; content := text; msg_type := TEXT; timestamp := t;
     attachments := None; groundingMetadata := g |}.

Definition web_chunk (u : string) : GroundingChunk :=
  {| web := Some {| uri := Some u; web_title := None |} |}.

Definition bare_chunk : GroundingChunk := {| web := None |}.

Definition session_of (ms : list Message) : ChatSession :=
  {| id := "s1"; title := "Hi"; lastModified := 0; messages := ms;
     modeId := GENERAL; projectId := None |}.

(** A serializer standing in for [JSON.stringify(v, null, 2)]. *)
Definition plain_stringify (v : Gemini.json) : string :=
  match v with
  | Gemini.JStr s => s
  | Gemini.JNum n => JS.toString n
  | _ => "{}"
  end.

End Examples.

(* ================================================================== *)
(** * The mode and project registry ([constants.ts])                   *)
(* ================================================================== *)

Module Registry.

Import Gemini.

Definition mode_GENERAL : Mode :=
  {| mode_id := GENERAL;
     mode_name := "AI Assistant";
     mode_description := "General purpose assistant. Routes tasks.";
     systemPrompt :=
       ("You are Axora, a general AI assistant. " ++ NL
       ++ "    You have access to Shared Project Memory but NOT mode-specific details unless provided." ++ NL
       ++ "    " ++ NL
       ++ "    CRITICAL RULES:" ++ NL
       ++ "    1. If the user asks for high-end image generation, suggest the Visual Studio mode." ++ NL
       ++ "    2. If the user asks for deep market research, suggest Market Research mode." ++ NL
       ++ "    3. Maintain a helpful, professional persona.")%string;
     provider := GEMINI;
     capabilities := [cap_text] |}.

Definition mode_LANDING_PAGE : Mode :=
  {| mode_id := LANDING_PAGE;
     mode_name := "Landing Page Creator";
     mode_description := "Specialist in CRO and Layouts.";
     systemPrompt :=
       ("You are a Conversion Rate Optimization (CRO) expert." ++ NL
       ++ "    ACCESS: You have access to Shared Memory AND 'Landing Page' specific memory." ++ NL
       ++ "    " ++ NL
       ++ "    You strictly adhere to the Project Context provided." ++ NL
       ++ "    Output format should be structured: Hero Section, Value Prop, Features, Social Proof, CTA.")%string;
     provider := DEEPSEEK;
     capabilities := [cap_text] |}.

Definition mode_EBOOK : Mode :=
  {| mode_id := EBOOK;
     mode_name := "Ebook Architect";
     mode_description := "Long-form structured content.";
     systemPrompt :=
       ("You are an expert Ghostwriter and Editor." ++ NL
       ++ "    ACCESS: You have access to Shared Memory AND 'Ebook' specific memory (e.g. outlines, current chapter)." ++ NL
       ++ "    " ++ NL
       ++ "    You specialize in creating outline-driven, comprehensive ebooks." ++ NL
       ++ "    Focus on chapter structure, flow, and educational value.")%string;
     provider := DEEPSEEK;
     capabilities := [cap_text] |}.

Definition mode_IMAGE_GEN : Mode :=
  {| mode_id := IMAGE_GEN;
     mode_name := "Visual Studio";
     mode_description := "Fal.ai Nano Banana Pro emulation.";
     systemPrompt :=
       ("You are a Visual Prompt Engineer connected to Fal.ai (Nano Banana Pro). " ++ NL
       ++ "    Your task is to take user ideas and refine them into highly descriptive, artistic prompts." ++ NL
       ++ "    Then, you generate the image.")%string;
     provider := FAL_AI;
     capabilities := [cap_text; cap_image] |}.

Definition mode_MARKET_RESEARCH : Mode :=
  {| mode_id := MARKET_RESEARCH;
     mode_name := "Market Research";
     mode_description := "Tavily Search emulation.";
     systemPrompt :=
       ("You are a Senior Market Analyst connected to Tavily." ++ NL
       ++ "    You use search tools to find real-time data, competitor analysis, and market trends." ++ NL
       ++ "    Always cite sources. Focus on data-driven insights.")%string;
     provider := TAVILY;
     capabilities := [cap_text; cap_search] |}.

Definition MODES : list Mode :=
  [mode_GENERAL; mode_LANDING_PAGE; mode_EBOOK; mode_IMAGE_GEN; mode_MARKET_RESEARCH].

(** [MODES[i]] for an index inside the table (the sources use 0 and 4). *)
Definition MODES_at (i : nat) : Mode := nth i MODES mode_GENERAL.

Definition DQ : string := String (ascii_of_nat 34) EmptyString.

Definition project_p1 : Project :=
  {| project_id := "p1";
     project_name := "Personal Brand";
     project_description := "Building a personal brand on LinkedIn for Tech Leadership.";
     memory :=
       {| sharedContext :=
            {| summary := "User is a Senior React Developer wanting to become a thought leader.";
               keyFacts := [("Audience", "CTOs and Engineering Managers");
                            ("Goals", "Grow newsletter subscribers")] |};
          modeContext :=
            fun m =>
              match m with
              | LANDING_PAGE =>
                  Some {| lastState := Some "Hero section draft completed.";
                          specificInstructions :=
                            Some "Focus on minimal aesthetic, dark mode inspired.";
                          data := None |}
              | EBOOK =>
                  Some {| lastState := None;
                          specificInstructions :=
                            Some "Tone should be slightly contrarian but professional.";
                          data :=
                            Some (JObj [("outline",
                                         JArr [JStr "Chapter 1: The Myth of Clean Code";
                                               JStr "Chapter 2: Pragmatic Engineering"])]) |}
              | _ => None
              end |} |}.

Definition project_p2 : Project :=
  {| project_id := "p2";
     project_name := ("SaaS Startup " ++ DQ ++ "Flow" ++ DQ)%string;
     project_description := "A project management tool for creative agencies.";
     memory :=
       {| sharedContext :=
            {| summary := "Flow is a B2B SaaS competing with Asana but for designers.";
               keyFacts := [("USP", "Visual-first timelines");
                            ("Pricing", "Premium tier focus")] |};
          modeContext :=
            fun m =>
              match m with
              | MARKET_RESEARCH =>
                  Some {| lastState := None;
                          specificInstructions :=
                            Some "Track competitors: Asana, Monday, Trello.";
                          data :=
                            Some (JObj [("competitors",
                                         JArr [JStr "Asana"; JStr "Trello"])]) |}
              | _ => None
              end |} |}.

Definition MOCK_PROJECTS : list Project := [project_p1; project_p2].

End Registry.

(* ================================================================== *)
(** * The handlers of the two components ([App], [ChatInterface])      *)
(* ================================================================== *)

Module Component.

Import History Gemini Registry.
Local Open Scope js_scope.

(** The state of [App]. *)
Record app := {
  currentMode : Mode;
  currentProject : option Project;
  st_messages : list Message;
  isTyping : bool;
  sessions : list ChatSession;
  currentSessionId : option string
}.

(** [currentSessionId === id] *)
Definition is_current (st : app) (i : string) : bool :=
  match currentSessionId st with
  | Some c => (c =? i)%string
  | None => false
  end.

(** [p.id === session.projectId] *)
Definition has_project_id (o : option string) (p : Project) : bool :=
  match o with
  | Some i => (project_id p =? i)%string
  | None => false
  end.

Definition handleLoadSession (session : ChatSession) (st : app) : app :=
  let savedMode := find (fun m => ModeType_eqb (mode_id m) (modeId session)) MODES in
  let savedProject := find (has_project_id (projectId session)) MOCK_PROJECTS in
  {| currentSessionId := Some (id session);
     st_messages := messages session;
     currentMode := match savedMode with Some m => m | None => currentMode st end;
     currentProject := savedProject;
     isTyping := isTyping st;
     sessions := sessions st |}.

Definition handleNewChat (st : app) : app :=
  {| currentSessionId := None;
     st_messages := [];
     currentMode := MODES_at 0;
     currentProject := None;
     isTyping := isTyping st;
     sessions := sessions st |}.

Definition handleDeleteSession (i : string) (st : app) : M world app :=
  updated <- deleteSession i ;;
  let st' :=
    {| currentSessionId := currentSessionId st;
       st_messages := st_messages st;
       currentMode := currentMode st;
       currentProject := currentProject st;
       isTyping := isTyping st;
       sessions := updated |} in
  if is_current st i then ret (handleNewChat st') else ret st'.

(** The effect that runs when the messages, the current session, the
    mode or the project change. *)
Definition persistEffect (st : app) : M world app :=
  if JS.truthy_opt (currentSessionId st) && (Z.of_nat (length (st_messages st)) >? 0) then
    match find (fun s => is_current st (id s)) (sessions st) with
    | Some sessionToUpdate =>
        let updatedSession :=
          {| id := id sessionToUpdate;
             title := title sessionToUpdate;
             lastModified := lastModified sessionToUpdate;
             messages := st_messages st;
             modeId := mode_id (currentMode st);
             projectId := App.projectId_of (currentProject st) |} in
        updatedList <- saveSession updatedSession ;;
        ret {| currentSessionId := currentSessionId st;
               st_messages := st_messages st;
               currentMode := currentMode st;
               currentProject := currentProject st;
               isTyping := isTyping st;
               sessions := updatedList |}
    | None => ret st
    end
  else ret st.

(** The browser and the SDK side by side, for the handler that uses both. *)
Record env := { browser : world; network : net }.

Definition in_browser {A} (c : M world A) : M env A :=
  fun e =>
    let r := c (browser e) in
    (fst r, {| browser := snd r; network := network e |}).

Definition in_network {A} (c : M net A) : M env A :=
  fun e =>
    let r := c (network e) in
    (fst r, {| browser := browser e; network := snd r |}).

Section SendMessage.

Variable stringify2 : json -> string.
Variable API_KEY : option string.
Variable GoogleGenAI : string -> Client.

(** [handleSendMessage], run as one uninterrupted sequence: the awaited
    call is the only suspension point and nothing else is taken to
    change the component meanwhile. *)
Definition handleSendMessage (text : string) (attachments : list Attachment)
    (imageSettings : option ImageSettings) (st : app) : M env app :=
  init <- in_browser
            (App.handleSendMessage_init text
               {| App.currentMode := currentMode st;
                  App.currentProject := currentProject st;
                  App.sessions := sessions st;
                  App.currentSessionId := currentSessionId st |}) ;;
  let st1 := fst init in
  idNow <- in_browser Date_now ;;
  stampNow <- in_browser Date_now ;;
  let userMsg :=
    {| msg_id := JS.toString idNow;
       role := USER;
       content := text;
       msg_type := TEXT;
       timestamp := stampNow;
       attachments := Some attachments;
       groundingMetadata := None |} in
  response <- in_network
                (sendMessageToGemini stringify2 API_KEY GoogleGenAI
                   (st_messages st) (currentMode st) (currentProject st) text
                   (map (fun a => (att_type a, att_data a)) attachments)
                   imageSettings) ;;
  idNow' <- in_browser Date_now ;;
  stampNow' <- in_browser Date_now ;;
  let aiMsg :=
    {| msg_id := JS.toString (idNow' + 1);
       role := MODEL;
       content := res_text response;
       msg_type := match res_images response with Some _ => IMAGE | None => TEXT end;
       timestamp := stampNow';
       attachments :=
         Some (match res_images response with
               | Some images =>
                   map (fun img => {| att_type := "image/png"; att_data := img;
                                      att_name := "generated.png" |}) images
               | None => []
               end);
       groundingMetadata := res_groundingMetadata response |} in
  ret {| currentSessionId := App.currentSessionId st1;
         st_messages := (st_messages st ++ [userMsg]) ++ [aiMsg];
         currentMode := currentMode st;
         currentProject := currentProject st;
         isTyping := false;
         sessions := App.sessions st1 |}.

End SendMessage.

(** ** [ChatInterface] *)

(** The local state of the chat view the handlers below use. *)
Record chat := {
  inputText : string;
  previousMode : option Mode;
  isImageSettingsOpen : bool;
  imageSettings : ImageSettings
}.

(** [MODES.find(m => m.id === i)] *)
Definition find_mode (i : ModeType) : option Mode :=
  find (fun m => ModeType_eqb (mode_id m) i) MODES.

(** The mode [handleSearchToggle] passes to [setMode]. *)
Definition handleSearchToggle (currentMode : Mode) : Mode :=
  if ModeType_eqb (mode_id currentMode) MARKET_RESEARCH then
    match find_mode GENERAL with Some m => m | None => MODES_at 0 end
  else
    match find_mode MARKET_RESEARCH with Some m => m | None => MODES_at 4 end.

(** [handleImageGenToggle]: the mode after the handler and the new local
    state. *)
Definition handleImageGenToggle (currentMode : Mode) (ui : chat) : Mode * chat :=
  let isCurrentlyImageMode := ModeType_eqb (mode_id currentMode) IMAGE_GEN in
  if isCurrentlyImageMode then
    let mode :=
      match previousMode ui with
      | Some previous =>
          if negb (ModeType_eqb (mode_id previous) IMAGE_GEN) then previous
          else MODES_at 0
      | None => MODES_at 0
      end in
    (mode,
     {| inputText := inputText ui; previousMode := None;
        isImageSettingsOpen := false; imageSettings := imageSettings ui |})
  else
    let mode :=
      match find_mode IMAGE_GEN with
      | Some imageMode => imageMode
      | None => currentMode
      end in
    (mode,
     {| inputText := inputText ui; previousMode := Some currentMode;
        isImageSettingsOpen := true; imageSettings := imageSettings ui |}).

(** White space and line terminators among the code units below 256. *)
Definition is_space (c : ascii) : bool :=
  let n := nat_of_ascii c in
  ((9 <=? n)%nat && (n <=? 13)%nat) || (n =? 32)%nat || (n =? 160)%nat.

Fixpoint trimStart (s : string) : string :=
  match s with
  | EmptyString => EmptyString
  | String c r => if is_space c then trimStart r else s
  end.

Fixpoint trimEnd (s : string) : string :=
  match s with
  | EmptyString => EmptyString
  | String c r =>
      let r' := trimEnd r in
      if is_space c && (r' =? "")%string then EmptyString else String c r'
  end.

(** [s.trim()] *)
Definition trim (s : string) : string := trimEnd (trimStart s).

(** [handleSend]: the arguments given to [onSendMessage], when it is
    called, and the new local state. *)
Definition handleSend (currentMode : Mode) (ui : chat)
  : option (string * list Attachment * option ImageSettings) * chat :=
  if negb (JS.truthy (trim (inputText ui))) then (None, ui)
  else
    let settingsToSend :=
      if ModeType_eqb (mode_id currentMode) IMAGE_GEN
      then Some (imageSettings ui) else None in
    (Some (inputText ui, [], settingsToSend),
     {| inputText := ""; previousMode := previousMode ui;
        isImageSettingsOpen := isImageSettingsOpen ui;
        imageSettings := imageSettings ui |}).

End Component.

(* ================================================================== *)
(** * Vocabulary of the further statements                             *)
(* ================================================================== *)

Module Shapes.

Import Gemini.

(** Every character of [s] satisfies [p]. *)
Fixpoint all_chars (p : ascii -> bool) (s : string) : bool :=
  match s with
  | EmptyString => true
  | String c r => p c && all_chars p r
  end.

(** A lower-case letter, a digit or an underscore. *)
Definition file_name_char (c : ascii) : bool :=
  JS.is_lower c || JS.is_digit c || (c =? "_")%char.

(** A mode-memory entry without its falsy fields. *)
Definition without_falsy (e : ModeMemory) : ModeMemory :=
  {| lastState := if JS.truthy_opt (lastState e) then lastState e else None;
     specificInstructions :=
       if JS.truthy_opt (specificInstructions e) then specificInstructions e else None;
     data := match data e with
             | Some d => if truthy_json d then Some d else None
             | None => None
             end |}.

(** The inline payloads of response parts as data URIs of type [fmt]. *)
Definition data_uris (fmt : string) (ps : list ResponsePart) : list string :=
  flat_map (fun p => match inlineData p with
                     | Some d => [("data:" ++ fmt ++ ";base64," ++ inline_data d)%string]
                     | None => []
                     end) ps.

(** The non-empty texts of the parts that carry no inline payload. *)
Definition plain_texts (ps : list ResponsePart) : list string :=
  flat_map (fun p => match inlineData p with
                     | Some _ => []
                     | None => if JS.truthy_opt (part_text p)
                               then [JS.or_else (part_text p) ""] else []
                     end) ps.



(** The requests among issued calls. *)
Definition requests (issued : list (request * option JS.exn)) : list request :=
  map fst issued.

End Shapes.

(* ================================================================== *)
(** * Facts about the JavaScript primitives                            *)
(* ================================================================== *)

Section SortFacts.

Context {A : Type}.
Variable key : A -> Z.

(** The comparator is [(a, b) => key b - key a]; it sorts into
    descending keys. *)

Lemma sort_insert_perm (c : A -> A -> Z) x l :
  Permutation (JS.sort_insert c x l) (x :: l).
Proof.
  induction l as [|y r IH]; simpl.
  - apply Permutation_refl.
  - destruct (c x y <=? 0).
    + apply Permutation_refl.
    + apply perm_trans with (y :: x :: r).
      * now apply perm_skip.
      * apply perm_swap.
Qed.

Lemma sort_perm (c : A -> A -> Z) l : Permutation (JS.sort c l) l.
Proof.
  induction l as [|x r IH]; simpl.
  - constructor.
  - eapply perm_trans; [apply sort_insert_perm|]. now apply perm_skip.
Qed.

Lemma sort_insert_sorted x l :
  StronglySorted (fun a b => key a >= key b) l -> StronglySorted (fun a b => key a >= key b) (JS.sort_insert (fun a b => key b - key a) x l).
Proof.
  induction 1 as [|y r Hs IH Hall]; simpl.
  - repeat constructor.
  - destruct (Z.leb_spec (key y - key x) 0) as [Hle|Hgt].
    + constructor; [now constructor|].
      constructor; [lia|].
      eapply Forall_impl; [|exact Hall]. simpl. intros; lia.
    + constructor; [exact IH|].
      eapply Permutation_Forall; [apply Permutation_sym, sort_insert_perm|].
      constructor; [lia | exact Hall].
Qed.

Lemma sort_sorted l : StronglySorted (fun a b => key a >= key b) (JS.sort (fun a b => key b - key a) l).
Proof.
  induction l as [|x r IH]; simpl.
  - constructor.
  - now apply sort_insert_sorted.
Qed.

Lemma sort_insert_stable t x l :
  filter (fun a => key a =? t) (JS.sort_insert (fun a b => key b - key a) x l)
  = filter (fun a => key a =? t) (x :: l).
Proof.
  induction l as [|y r IH]; simpl.
  - reflexivity.
  - destruct (Z.leb_spec (key y - key x) 0) as [Hle|Hgt].
    + reflexivity.
    + simpl in *. rewrite IH.
      destruct (Z.eqb_spec (key x) t), (Z.eqb_spec (key y) t);
        try reflexivity; lia.
Qed.

Lemma sort_stable t l :
  filter (fun a => key a =? t) (JS.sort (fun a b => key b - key a) l) = filter (fun a => key a =? t) l.
Proof.
  induction l as [|x r IH]; simpl.
  - reflexivity.
  - rewrite sort_insert_stable. simpl. now rewrite IH.
Qed.

End SortFacts.

Lemma filter_full {A} (f : A -> bool) (l : list A) :
  length (filter f l) = length l -> filter f l = l.
Proof.
  induction l as [|x r IH]; simpl; [reflexivity|].
  destruct (f x); simpl; intros H.
  - f_equal. apply IH. lia.
  - pose proof (filter_length_le f r). lia.
Qed.

Lemma findIndex_range {A} (p : A -> bool) (l : list A) :
  -1 <= JS.findIndex p l < Z.of_nat (length l).
Proof.
  induction l as [|x r IH]; simpl; [lia|].
  destruct (p x); [lia|].
  destruct (Z.ltb_spec (JS.findIndex p r) 0); lia.
Qed.

Lemma findIndex_absent {A} (p : A -> bool) (l : list A) :
  JS.findIndex p l < 0 -> Forall (fun x => p x = false) l.
Proof.
  induction l as [|x r IH]; simpl; intros H; [constructor|].
  destruct (p x) eqn:Px; [lia|].
  destruct (Z.ltb_spec (JS.findIndex p r) 0) as [Hn|Hn].
  - constructor; auto.
  - pose proof (findIndex_range p r). lia.
Qed.

Lemma findIndex_found {A} (p : A -> bool) (l : list A) :
  0 <= JS.findIndex p l ->
  exists l1 x l2,
    l = l1 ++ x :: l2 /\ p x = true /\ Forall (fun y => p y = false) l1 /\
    Z.to_nat (JS.findIndex p l) = length l1.
Proof.
  induction l as [|x r IH]; simpl; intros H; [lia|].
  destruct (p x) eqn:Px.
  - exists [], x, r. repeat split; auto.
  - destruct (Z.ltb_spec (JS.findIndex p r) 0) as [Hn|Hn]; [lia|].
    destruct (IH Hn) as (l1 & y & l2 & -> & Py & Hall & Hlen).
    exists (x :: l1), y, l2. repeat split; auto.
    simpl. rewrite <- Hlen. lia.
Qed.

Lemma assign_middle {A} (l1 : list A) x l2 y :
  JS.assign (l1 ++ x :: l2) (length l1) y = l1 ++ y :: l2.
Proof.
  induction l1 as [|a r IH]; simpl; [reflexivity|]. now rewrite IH.
Qed.

(* ================================================================== *)
(** * What one run of each store operation does                        *)
(* ================================================================== *)

Section StoreRuns.

Import History Obs.

(** [list()]: the value is always the retained sessions, newest first;
    the entry afterwards holds the retained sessions in their stored
    order; the clock is read at most once. *)
Lemma loadSessions_run (w : world) :
  let now := clock w (reads w) in
  let kept := filter (retained now) (sessions_of (stored w)) in
  exists w',
    loadSessions w
      = (inr (JS.sort (fun a b => lastModified b - lastModified a) kept), w')
    /\ sessions_of (stored w') = kept
    /\ clock w' = clock w
    /\ (reads w <= reads w' <= S (reads w))%nat
    /\ (unreadable (stored w) = true -> stored w' = stored w)
    /\ (unreadable (stored w) = false -> stored w' = Some (SessionsJSON kept)).
Proof.
  intros now kept. subst now kept.
  unfold loadSessions, try_catch, bind, getItem, stored.
  destruct (localStorage w STORAGE_KEY) as [[| why | why | l]|] eqn:E; simpl.
  - exists w. unfold stored. rewrite E. simpl. repeat split; auto; lia.
  - eexists. split; [reflexivity|]. unfold stored. simpl. rewrite E. simpl.
    repeat split; auto; lia.
  - eexists. split; [reflexivity|]. unfold stored. simpl. rewrite E. simpl.
    repeat split; auto; lia.
  - unfold retained.
    destruct (Z.eqb_spec
                (Z.of_nat (length (filter (fun s => clock w (reads w) - lastModified s <? RETENTION_MS) l)))
                (Z.of_nat (length l))) as [Heq|Hne]; simpl.
    + eexists. split; [reflexivity|]. unfold stored. simpl. rewrite E. simpl.
      apply Nat2Z.inj in Heq. apply filter_full in Heq.
      repeat split; auto; try lia; try discriminate.
      intros _. now rewrite Heq.
    + eexists. split; [reflexivity|]. unfold stored. simpl.
      repeat split; auto; try lia; discriminate.
  - exists w. unfold stored. rewrite E. simpl. repeat split; auto; lia.
Qed.

Lemma saveSession_run (s : ChatSession) (w : world) :
  exists l0 w1,
    loadSessions w = (inr l0, w1) /\
    let l' := upserted l0 s (clock w1 (reads w1)) in
    fst (saveSession s w) = inr l' /\
    stored (snd (saveSession s w)) = Some (SessionsJSON l') /\
    clock (snd (saveSession s w)) = clock w1 /\
    reads (snd (saveSession s w)) = S (reads w1).
Proof.
  destruct (loadSessions_run w) as (w1 & Hrun & _).
  eexists _, w1. split; [exact Hrun|].
  unfold saveSession, bind. rewrite Hrun. simpl. unfold stored, upserted. simpl.
  repeat split; reflexivity.
Qed.

Lemma deleteSession_run (i : string) (w : world) :
  exists l0 w1,
    loadSessions w = (inr l0, w1) /\
    let l' := filter (fun s => negb (id s =? i)%string) l0 in
    fst (deleteSession i w) = inr l' /\
    stored (snd (deleteSession i w)) = Some (SessionsJSON l').
Proof.
  destruct (loadSessions_run w) as (w1 & Hrun & _).
  eexists _, w1. split; [exact Hrun|].
  unfold deleteSession, bind. rewrite Hrun. simpl. unfold stored. simpl.
  split; reflexivity.
Qed.

Lemma upserted_cases (l0 : list ChatSession) (s : ChatSession) (now : Z) :
  (Forall (fun x => (id x =? id s)%string = false) l0 /\
   upserted l0 s now = with_lastModified s now :: l0)
  \/
  (exists l1 x l2,
     l0 = l1 ++ x :: l2 /\ id x = id s /\
     Forall (fun y => (id y =? id s)%string = false) l1 /\
     upserted l0 s now = l1 ++ with_lastModified s now :: l2).
Proof.
  unfold upserted.
  destruct (Z.geb_spec (JS.findIndex (fun x => (id x =? id s)%string) l0) 0) as [Hge|Hlt].
  - right.
    destruct (findIndex_found _ l0 Hge)
      as (l1 & x & l2 & El & Px & Hall & Hlen).
    exists l1, x, l2. rewrite Hlen.
    repeat split; auto.
    + now apply String.eqb_eq.
    + rewrite El. apply assign_middle.
  - left. split; [|reflexivity]. apply findIndex_absent. lia.
Qed.

End StoreRuns.

(* ================================================================== *)
(** * Session store: retention, ordering, failure recovery             *)
(* ================================================================== *)

Section StoreProperties.

Import History Obs.

Lemma In_filter_retained now (s : ChatSession) l :
  In s (filter (retained now) l) -> now - lastModified s < RETENTION_MS.
Proof.
  intros H. apply filter_In in H. destruct H as [_ H].
  unfold retained in H. now apply Z.ltb_lt.
Qed.

Lemma stamped_retained now t l :
  stamped t (filter (retained now) l)
  = if now - t <? RETENTION_MS then stamped t l else [].
Proof.
  unfold stamped, retained.
  induction l as [|x r IH]; simpl.
  - now destruct (now - t <? RETENTION_MS).
  - destruct (Z.ltb_spec (now - lastModified x) RETENTION_MS) as [Hx|Hx]; simpl;
      rewrite IH; destruct (Z.eqb_spec (lastModified x) t) as [E|Hne];
      destruct (Z.ltb_spec (now - t) RETENTION_MS); try reflexivity; lia.
Qed.

(** C1 (retention invariant).  A stored session whose age at the time of
    [list()] is at least [RETENTION_MS] (ten days in milliseconds) is
    absent from the list returned and from the entry persisted after the
    call, which then holds exactly the retained sessions. *)
Theorem retention_invariant (w : world) (S : ChatSession) :
  In S (sessions_of (stored w)) ->
  clock w (reads w) - lastModified S >= RETENTION_MS ->
  RETENTION_MS = 864000000 /\
  (exists l, fst (loadSessions w) = inr l /\ ~ In S l) /\
  ~ In S (sessions_of (stored (snd (loadSessions w)))) /\
  stored (snd (loadSessions w))
  = Some (SessionsJSON (filter (retained (clock w (reads w))) (sessions_of (stored w)))).
Proof.
  intros HS Hold.
  destruct (loadSessions_run w) as (w' & Hrun & Hkept & _ & _ & _ & Hwr).
  rewrite Hrun. simpl.
  assert (Hno : ~ In S (filter (retained (clock w (reads w))) (sessions_of (stored w)))).
  { intros Hin. apply In_filter_retained in Hin. lia. }
  split; [reflexivity|]. split; [|split].
  - eexists. split; [reflexivity|].
    intros Hin. apply Hno.
    eapply Permutation_in; [apply sort_perm | exact Hin].
  - now rewrite Hkept.
  - apply Hwr. destruct (stored w) as [[| | |l]|]; simpl in *; tauto.
Qed.

Lemma retention_invariant_witness :
  let w := Examples.browser
             (Some (SessionsJSON [Examples.session "c" 0; Examples.session "a" (5 * Examples.day)]))
             (11 * Examples.day) 1 in
  fst (loadSessions w) = inr [Examples.session "a" (5 * Examples.day)] /\
  ~ In (Examples.session "c" 0) (sessions_of (stored (snd (loadSessions w)))).
Proof.
  intros w.
  split; [reflexivity|].
  apply (retention_invariant w (Examples.session "c" 0)).
  - simpl. left. reflexivity.
  - vm_compute. discriminate.
Defined.

(** C2 (ordering invariant).  The list returned by [list()] is sorted by
    [lastModified], newest first, and sessions with equal [lastModified]
    keep the relative order they have in the persisted entry. *)
Theorem list_newest_first_stable (w : world) :
  exists l,
    fst (loadSessions w) = inr l /\
    StronglySorted newer_or_equal l /\
    Permutation l (filter (retained (clock w (reads w))) (sessions_of (stored w))) /\
    forall t,
      stamped t l
      = if clock w (reads w) - t <? RETENTION_MS
        then stamped t (sessions_of (stored w)) else [].
Proof.
  destruct (loadSessions_run w) as (w' & Hrun & _).
  rewrite Hrun. simpl. eexists. split; [reflexivity|]. split; [|split].
  - apply (sort_sorted lastModified).
  - apply sort_perm.
  - intros t. unfold stamped at 1.
    rewrite (sort_stable lastModified). apply stamped_retained.
Qed.

(** C5 (failure recovery).  [list()] returns for every persisted entry;
    when the entry is missing, empty, not valid JSON or not an array, it
    returns the empty list. *)
Theorem list_never_raises (w : world) :
  (exists l w', loadSessions w = (inr l, w')) /\
  (unreadable (stored w) = true -> fst (loadSessions w) = inr []) /\
  (stored w = None -> fst (loadSessions w) = inr []) /\
  (forall why, stored w = Some (NotJSON why) -> fst (loadSessions w) = inr []).
Proof.
  destruct (loadSessions_run w) as (w' & Hrun & _).
  assert (U : unreadable (stored w) = true -> fst (loadSessions w) = inr []).
  { rewrite Hrun. simpl. intros H.
    destruct (stored w) as [[| | |l]|]; simpl in *; try reflexivity; discriminate. }
  split; [eauto|]. split; [exact U|]. split.
  - intros E. apply U. now rewrite E.
  - intros why E. apply U. now rewrite E.
Qed.

Lemma list_never_raises_witness :
  fst (loadSessions (Examples.browser (Some (NotJSON "Unexpected token")) 1000 1)) = inr [] /\
  fst (loadSessions (Examples.browser None 1000 1)) = inr [].
Proof.
  split.
  - apply (proj1 (proj2 (list_never_raises _))). reflexivity.
  - apply (proj1 (proj2 (proj2 (list_never_raises _)))). reflexivity.
Defined.

End StoreProperties.

(* ================================================================== *)
(** * Session store: one session per id, save and delete               *)
(* ================================================================== *)

Section UpsertDelete.

Import History Obs.

Lemma kept_ids_distinct (keep : ChatSession -> bool) (ss : list ChatSession) :
  NoDup (map id ss) -> NoDup (map id (filter keep ss)).
Proof.
  intros Hnd. induction ss as [|s ss IH]; simpl in *; [exact Hnd|].
  apply NoDup_cons_iff in Hnd. destruct Hnd as [Hfresh Hrest].
  destruct (keep s); simpl; [|now apply IH].
  apply NoDup_cons_iff. split; [|now apply IH].
  rewrite in_map_iff. intros (s' & Eid & Hs').
  apply filter_In in Hs'. apply Hfresh.
  rewrite in_map_iff. exists s'. tauto.
Qed.

Lemma ids_absent (i : string) (l : list ChatSession) :
  Forall (fun x => (id x =? i)%string = false) l <-> ~ In i (map id l).
Proof.
  induction l as [|x r IH]; simpl.
  - split; [tauto | constructor].
  - split.
    + intros H. inversion H as [|? ? Hx Hr]; subst.
      apply String.eqb_neq in Hx. intros [E|Hin]; [congruence | now apply IH].
    + intros H. constructor.
      * apply String.eqb_neq. tauto.
      * apply IH. tauto.
Qed.

Lemma count_id_absent (i : string) (l : list ChatSession) :
  ~ In i (map id l) -> count_id i l = 0%nat.
Proof.
  intros H. apply ids_absent in H. unfold count_id.
  induction H as [|x r Hx _ IH]; simpl; [reflexivity|]. now rewrite Hx.
Qed.

Lemma count_id_app (i : string) (l1 l2 : list ChatSession) :
  count_id i (l1 ++ l2) = (count_id i l1 + count_id i l2)%nat.
Proof. unfold count_id. now rewrite filter_app, length_app. Qed.

Lemma listed_ids_NoDup (w : world) l w' :
  NoDup (map id (sessions_of (stored w))) ->
  loadSessions w = (inr l, w') ->
  NoDup (map id l).
Proof.
  intros Hnd Hl.
  destruct (loadSessions_run w) as (w1 & Hrun & _).
  rewrite Hrun in Hl. injection Hl as <- _.
  eapply Permutation_NoDup.
  - apply Permutation_map, Permutation_sym, sort_perm.
  - now apply kept_ids_distinct.
Qed.

Lemma upserted_ids_NoDup l0 s now :
  NoDup (map id l0) -> NoDup (map id (upserted l0 s now)).
Proof.
  intros Hnd.
  destruct (upserted_cases l0 s now)
    as [[Habs ->] | (l1 & x & l2 & -> & Ex & Habs & ->)].
  - simpl. constructor; [now apply ids_absent | exact Hnd].
  - rewrite map_app in *. simpl in *. now rewrite <- Ex.
Qed.

Lemma upserted_count l0 s now :
  NoDup (map id l0) -> count_id (id s) (upserted l0 s now) = 1%nat.
Proof.
  intros Hnd.
  destruct (upserted_cases l0 s now)
    as [[Habs ->] | (l1 & x & l2 & -> & Ex & Habs & ->)].
  - change (with_lastModified s now :: l0) with ([with_lastModified s now] ++ l0).
    rewrite count_id_app, (count_id_absent _ l0) by now apply ids_absent.
    unfold count_id. simpl. now rewrite String.eqb_refl.
  - rewrite map_app in Hnd. simpl in Hnd. apply NoDup_remove_2 in Hnd.
    rewrite Ex in Hnd.
    change (l1 ++ with_lastModified s now :: l2)
      with (l1 ++ [with_lastModified s now] ++ l2).
    rewrite !count_id_app.
    rewrite (count_id_absent _ l1), (count_id_absent _ l2).
    + unfold count_id. simpl. now rewrite String.eqb_refl.
    + intros H. apply Hnd, in_or_app. now right.
    + intros H. apply Hnd, in_or_app. now left.
Qed.

(** C3 (one session per id).  From a store with at most one session per
    id, [save] and [delete] lead to a store with at most one session per
    id; after [save] the saved id has exactly one entry, also when a
    session with the same id is saved a second time. *)
Theorem one_session_per_id (w : world) :
  NoDup (map id (sessions_of (stored w))) ->
  (forall s,
     NoDup (map id (sessions_of (stored (snd (saveSession s w))))) /\
     count_id (id s) (sessions_of (stored (snd (saveSession s w)))) = 1%nat) /\
  (forall i, NoDup (map id (sessions_of (stored (snd (deleteSession i w)))))) /\
  (forall s1 s2 w1,
     id s1 = id s2 ->
     stored w1 = stored (snd (saveSession s1 w)) ->
     NoDup (map id (sessions_of (stored (snd (saveSession s2 w1))))) /\
     count_id (id s1) (sessions_of (stored (snd (saveSession s2 w1)))) = 1%nat).
Proof.
  intros Hnd.
  assert (Save : forall w0 s,
             NoDup (map id (sessions_of (stored w0))) ->
             NoDup (map id (sessions_of (stored (snd (saveSession s w0))))) /\
             count_id (id s) (sessions_of (stored (snd (saveSession s w0)))) = 1%nat).
  { intros w0 s H0.
    destruct (saveSession_run s w0) as (l0 & w1 & Hl & _ & Hst & _).
    rewrite Hst. simpl.
    pose proof (listed_ids_NoDup _ _ _ H0 Hl) as Hl0.
    split; [now apply upserted_ids_NoDup | now apply upserted_count]. }
  split; [|split].
  - intros s. now apply Save.
  - intros i.
    destruct (deleteSession_run i w) as (l0 & w1 & Hl & _ & Hst).
    rewrite Hst. simpl. apply kept_ids_distinct.
    eapply listed_ids_NoDup; eauto.
  - intros s1 s2 w1 Eid Hw1. rewrite Eid. apply Save.
    rewrite Hw1. now apply Save.
Qed.

Lemma one_session_per_id_witness :
  let w := Examples.browser
             (Some (SessionsJSON [Examples.session "a" 100; Examples.session "b" 200]))
             1000 1 in
  count_id "a"
    (sessions_of (stored (snd (saveSession (Examples.session "a" 7)
                                 (snd (saveSession (Examples.session "a" 5) w))))))
  = 1%nat.
Proof.
  intros w.
  refine (proj2 (proj2 (proj2 (one_session_per_id w _))
                   (Examples.session "a" 5) (Examples.session "a" 7) _ eq_refl eq_refl)).
  simpl. repeat constructor; simpl; intuition discriminate.
Defined.

End UpsertDelete.

Section DeleteAndRoundTrip.

Import History Obs.

Lemma filter_ids_absent (i : string) (l : list ChatSession) :
  ~ In i (map id l) -> filter (fun s => negb (id s =? i)%string) l = l.
Proof.
  intros H. apply ids_absent in H.
  induction H as [|x r Hx _ IH]; simpl; [reflexivity|].
  rewrite Hx. simpl. now rewrite IH.
Qed.

Lemma filter_ids_removed (i : string) (l : list ChatSession) :
  ~ In i (map id (filter (fun s => negb (id s =? i)%string) l)).
Proof.
  intros H. apply in_map_iff in H. destruct H as (x & Ex & Hx).
  apply filter_In in Hx. destruct Hx as [_ Hx].
  rewrite <- Ex, String.eqb_refl in Hx. discriminate.
Qed.

(** C9 as stated fails: a store whose only session has expired loses it
    when an unknown id is deleted, so the number of stored sessions goes
    from one to zero. *)
Lemma delete_unknown_purges_expired :
  let w := Examples.browser (Some (SessionsJSON [Examples.session "c" 0]))
             (11 * Examples.day) 1 in
  ~ In "nonexistent" (map id (sessions_of (stored w))) /\
  length (sessions_of (stored w)) = 1%nat /\
  length (sessions_of (stored (snd (deleteSession "nonexistent" w)))) = 0%nat /\
  length (sessions_of (stored (snd (deleteSession "nonexistent" w))))
  <> length (sessions_of (stored w)).
Proof.
  intros w. repeat split; try reflexivity.
  - simpl. intuition discriminate.
  - vm_compute. discriminate.
Qed.

(** C9 (amended).  [delete(id)] always returns: its value is the list
    [list()] would return without the entries carrying [id], it is what
    is persisted, and no entry with [id] is left.  For an id that is not
    in the store, the value is the [list()] result itself, and the number
    of stored sessions that are within retention at the time of the call
    is unchanged: the store keeps its length when no stored session has
    expired (expired sessions are purged as by [list()]). *)
Theorem delete_spec (w : world) (i : string) :
  exists l0 l,
    fst (loadSessions w) = inr l0 /\
    fst (deleteSession i w) = inr l /\
    stored (snd (deleteSession i w)) = Some (SessionsJSON l) /\
    l = filter (fun s => negb (id s =? i)%string) l0 /\
    ~ In i (map id l) /\
    (~ In i (map id (sessions_of (stored w))) ->
     l = l0 /\
     length (sessions_of (stored (snd (deleteSession i w))))
     = length (filter (retained (clock w (reads w))) (sessions_of (stored w))) /\
     (forallb (retained (clock w (reads w))) (sessions_of (stored w)) = true ->
      length (sessions_of (stored (snd (deleteSession i w))))
      = length (sessions_of (stored w)))).
Proof.
  destruct (deleteSession_run i w) as (l0 & w1 & Hl & Hval & Hst).
  destruct (loadSessions_run w) as (w1' & Hrun & _).
  rewrite Hrun in Hl. injection Hl as <- _.
  assert (Hperm := sort_perm (fun a b => lastModified b - lastModified a)
                     (filter (retained (clock w (reads w))) (sessions_of (stored w)))).
  eexists _, _. rewrite Hrun.
  split; [reflexivity|]. split; [exact Hval|]. split; [exact Hst|].
  split; [reflexivity|]. split; [apply filter_ids_removed|].
  intros Habs.
  assert (Hno : ~ In i (map id (JS.sort (fun a b => lastModified b - lastModified a)
                     (filter (retained (clock w (reads w))) (sessions_of (stored w)))))).
  { intros Hin. apply Habs.
    apply in_map_iff in Hin. destruct Hin as (x & Ex & Hx).
    eapply Permutation_in in Hx; [|exact Hperm].
    apply filter_In in Hx. apply in_map_iff. exists x. tauto. }
  rewrite Hst. simpl. rewrite (filter_ids_absent _ _ Hno).
  split; [reflexivity|]. split.
  - now apply Permutation_length.
  - intros Hall. rewrite (Permutation_length Hperm). f_equal.
    apply filter_full. clear -Hall.
    induction (sessions_of (stored w)) as [|x r IH]; simpl in *; [reflexivity|].
    apply andb_true_iff in Hall. destruct Hall as [Hx Hr].
    rewrite Hx. simpl. now rewrite IH.
Qed.

Lemma delete_spec_witness :
  let w := Examples.browser
             (Some (SessionsJSON [Examples.session "a" 100; Examples.session "b" 200]))
             1000 1 in
  length (sessions_of (stored (snd (deleteSession "nonexistent" w))))
  = length (sessions_of (stored w)).
Proof.
  intros w.
  destruct (delete_spec w "nonexistent") as (l0 & l & _ & _ & _ & _ & _ & H).
  apply H.
  - simpl. intuition discriminate.
  - reflexivity.
Defined.

End DeleteAndRoundTrip.

Section RoundTrip.

Import History Obs.

(** C4 as stated fails: a [list()] that comes ten days after the save no
    longer contains the saved session (the clock below reads 0 at the
    save and ten days at the list). *)
Lemma saved_session_expires :
  let w := Examples.browser None 0 (10 * Examples.day) in
  let S := Examples.session "a" 0 in
  fst (saveSession S w) = inr [with_lastModified S 0] /\
  fst (loadSessions (snd (saveSession S w))) = inr [] /\
  ~ (exists l e, fst (loadSessions (snd (saveSession S w))) = inr l /\
                 In e l /\ same_but_stamp e S).
Proof.
  intros w S. split; [reflexivity|]. split; [reflexivity|].
  intros (l & e & Hl & Hin & _).
  change (fst (loadSessions (snd (saveSession S w)))) with (@inr JS.exn _ (@nil ChatSession)) in Hl.
  injection Hl as <-. exact Hin.
Qed.

(** C4 (amended).  [save(S)] returns the list it persists; the entry it
    writes is [S] with [lastModified] set to the clock reading taken
    inside [save], whatever [S] carried; that entry replaces the first
    listed entry with the same id where it stands, or goes to the front
    when there is none.  Every later [list()] on that store made less
    than [RETENTION_MS] after the stamp contains the entry, equal to [S]
    in every field but [lastModified]; and when clock readings never
    decrease the stamp is at least every reading taken before the save. *)
Theorem save_round_trip (w : world) (S : ChatSession) :
  exists l0 now l',
    fst (loadSessions w) = inr l0 /\
    fst (saveSession S w) = inr l' /\
    stored (snd (saveSession S w)) = Some (SessionsJSON l') /\
    (now = clock w (reads w) \/ now = clock w (Datatypes.S (reads w))) /\
    ((~ In (id S) (map id l0) /\ l' = with_lastModified S now :: l0) \/
     (exists l1 x l2,
        l0 = l1 ++ x :: l2 /\ id x = id S /\ ~ In (id S) (map id l1) /\
        l' = l1 ++ with_lastModified S now :: l2)) /\
    (forall w2,
       stored w2 = stored (snd (saveSession S w)) ->
       clock w2 (reads w2) - now < RETENTION_MS ->
       exists l2 e,
         fst (loadSessions w2) = inr l2 /\ In e l2 /\
         same_but_stamp e S /\ lastModified e = now) /\
    (monotone (clock w) ->
     forall k, (k <= reads w)%nat -> clock w k <= now).
Proof.
  destruct (saveSession_run S w) as (l0 & w1 & Hl & Hval & Hst & _).
  destruct (loadSessions_run w) as (w1' & Hrun & _ & Hclk & Hreads & _).
  rewrite Hrun in Hl. injection Hl as <- <-.
  rewrite Hclk in Hval, Hst. rewrite Hrun.
  set (l0 := JS.sort (fun a b => lastModified b - lastModified a)
               (filter (retained (clock w (reads w))) (sessions_of (stored w)))) in *.
  set (now := clock w (reads w1')) in *.
  exists l0, now, (upserted l0 S now).
  split; [reflexivity|]. split; [exact Hval|]. split; [exact Hst|].
  assert (Hr : reads w1' = reads w \/ reads w1' = Datatypes.S (reads w)) by lia.
  split; [subst now; destruct Hr as [-> | ->]; auto|].
  split; [|split].
  - destruct (upserted_cases l0 S now)
      as [[Habs E] | (l1 & x & l2 & E0 & Ex & Habs & E)].
    + left. split; [now apply ids_absent | exact E].
    + right. exists l1, x, l2. repeat split; auto. now apply ids_absent.
  - intros w2 Hw2 Hfresh.
    destruct (loadSessions_run w2) as (w3 & Hrun2 & _).
    rewrite Hrun2. simpl. eexists _, (with_lastModified S now).
    split; [reflexivity|]. split.
    + eapply Permutation_in; [apply Permutation_sym, sort_perm|].
      apply filter_In. split.
      * rewrite Hw2, Hst. simpl.
        destruct (upserted_cases l0 S now)
          as [[_ ->] | (l1 & x & l2 & _ & _ & _ & ->)].
        -- now left.
        -- apply in_or_app. right. now left.
      * unfold retained. simpl. apply Z.ltb_lt. exact Hfresh.
    + split; [|reflexivity]. unfold same_but_stamp. simpl. tauto.
  - intros Hmono k Hk. apply Hmono. lia.
Qed.

Lemma save_round_trip_witness :
  let w := Examples.browser
             (Some (SessionsJSON [Examples.session "a" 100; Examples.session "b" 200]))
             1000 1 in
  exists now, 1000 <= now /\
    exists l2 e, fst (loadSessions (snd (saveSession (Examples.session "b" 5) w))) = inr l2 /\
                 In e l2 /\ same_but_stamp e (Examples.session "b" 5) /\ lastModified e = now.
Proof.
  intros w.
  destruct (save_round_trip w (Examples.session "b" 5))
    as (l0 & now & l' & _ & _ & _ & Hnow & _ & Hlist & Hmono).
  exists now. split.
  - assert (Hm : monotone (clock w)).
    { intros i j Hij. unfold w, Examples.browser. cbn [clock]. lia. }
    assert (H0 : (0 <= reads w)%nat) by (unfold w; simpl; lia).
    exact (Hmono Hm 0%nat H0).
  - apply Hlist; [reflexivity|].
    destruct Hnow as [-> | ->]; vm_compute; reflexivity.
Defined.

End RoundTrip.

(* ================================================================== *)
(** * Strings                                                          *)
(* ================================================================== *)

Section StringFacts.

Lemma str_app_assoc (a b c : string) : ((a ++ b) ++ c = a ++ (b ++ c))%string.
Proof. induction a as [|x a IH]; simpl; [reflexivity | now rewrite IH]. Qed.

Lemma str_app_nil_r (a : string) : (a ++ "" = a)%string.
Proof. induction a as [|x a IH]; simpl; [reflexivity | now rewrite IH]. Qed.

Lemma contains_refl (s : string) : contains s s.
Proof. exists ""%string, ""%string. simpl. now rewrite str_app_nil_r. Qed.

Lemma contains_app_l (sub a b : string) :
  contains sub a -> contains sub (a ++ b)%string.
Proof.
  intros (pre & post & ->). exists pre, (post ++ b)%string.
  now rewrite !str_app_assoc.
Qed.

Lemma contains_app_r (sub a b : string) :
  contains sub b -> contains sub (a ++ b)%string.
Proof.
  intros (pre & post & ->). exists (a ++ pre)%string, post.
  now rewrite !str_app_assoc.
Qed.

Lemma contains_trans (a b c : string) :
  contains a b -> contains b c -> contains a c.
Proof.
  intros (p1 & q1 & ->) (p2 & q2 & ->).
  exists (p2 ++ p1)%string, (q1 ++ q2)%string.
  now rewrite !str_app_assoc.
Qed.

Lemma substring_prefix (n : nat) (s : string) :
  (n <= String.length s)%nat ->
  exists rest,
    s = (String.substring 0 n s ++ rest)%string /\
    String.length (String.substring 0 n s) = n.
Proof.
  revert s. induction n as [|n IH]; intros s Hn.
  - exists s. destruct s; simpl; auto.
  - destruct s as [|c s]; simpl in Hn; [lia|].
    destruct (IH s ltac:(lia)) as (rest & E & L).
    exists rest. simpl. split; [now rewrite <- E | now rewrite L].
Qed.

End StringFacts.

(* ================================================================== *)
(** * Provider router: failures never leave the router                 *)
(* ================================================================== *)

Section RouterProperties.

Import Gemini Obs Shapes.

Variable stringify2 : json -> string.
Variable API_KEY : option string.
Variable GoogleGenAI : string -> Client.



Ltac thrown_call :=
  match goal with
  | H : In _ (_ ++ _) |- _ => apply in_app_or in H; destruct H as [H|H]
  | H : In _ [_] |- _ => destruct H as [H|[]]; inversion H; subst; clear H
  | H : In _ [] |- _ => destruct H
  end.



End RouterProperties.


(* ================================================================== *)
(** * Context assembler: mode memory stays with its mode               *)
(* ================================================================== *)

Section AssemblerProperties.

Import Gemini Layout.

Variable stringify2 : json -> string.

Ltac find_sub :=
  solve [ apply contains_refl
        | apply contains_app_l; find_sub
        | apply contains_app_r; find_sub ].

(** C7 (mode-memory isolation).  For a mode and two projects that differ
    at most in mode-context entries keyed by other modes, the assembled
    instruction is the same; and for every mode the instruction of a
    project carries the shared summary and the serialized key facts. *)
Theorem mode_memory_isolation (mode : Mode) (p1 p2 : Project) :
  (differ_only_in_other_modes (mode_id mode) p1 p2 ->
   constructContextualSystemPrompt stringify2 mode (Some p1)
   = constructContextualSystemPrompt stringify2 mode (Some p2)) /\
  contains ("Summary: " ++ summary (sharedContext (memory p1)) ++ NL)%string
    (constructContextualSystemPrompt stringify2 mode (Some p1)) /\
  contains ("Key Facts: "
              ++ stringify2 (keyFacts_json (keyFacts (sharedContext (memory p1))))
              ++ NL)%string
    (constructContextualSystemPrompt stringify2 mode (Some p1)).
Proof.
  split; [|split].
  - intros (_ & Hn & Hd & Hs & Hm).
    unfold constructContextualSystemPrompt.
    now rewrite Hn, Hd, Hs, Hm.
  - unfold constructContextualSystemPrompt. cbv zeta.
    destruct (modeContext (memory p1) (mode_id mode)) as [pm|].
    + destruct (JS.truthy_opt (specificInstructions pm));
        destruct (data pm) as [d|]; try destruct (truthy_json d);
        destruct (JS.truthy_opt (lastState pm)); find_sub.
    + find_sub.
  - unfold constructContextualSystemPrompt. cbv zeta.
    destruct (modeContext (memory p1) (mode_id mode)) as [pm|].
    + destruct (JS.truthy_opt (specificInstructions pm));
        destruct (data pm) as [d|]; try destruct (truthy_json d);
        destruct (JS.truthy_opt (lastState pm)); find_sub.
    + find_sub.
Qed.

End AssemblerProperties.

Lemma mode_memory_isolation_witness :
  let landing := Examples.mode_of LANDING_PAGE DEEPSEEK in
  let ebook := Examples.mode_of EBOOK DEEPSEEK in
  let p1 := Examples.project_with "Tone should be contrarian." in
  let p2 := Examples.project_with "Tone should be gentle." in
  Gemini.constructContextualSystemPrompt Examples.plain_stringify landing (Some p1)
  = Gemini.constructContextualSystemPrompt Examples.plain_stringify landing (Some p2) /\
  Gemini.constructContextualSystemPrompt Examples.plain_stringify ebook (Some p1)
  <> Gemini.constructContextualSystemPrompt Examples.plain_stringify ebook (Some p2).
Proof.
  intros landing ebook p1 p2. split.
  - apply (proj1 (mode_memory_isolation Examples.plain_stringify landing p1 p2)).
    repeat split; reflexivity.
  - vm_compute. discriminate.
Defined.

(* ================================================================== *)
(** * Session exporter: the layout of the transcript                   *)
(* ================================================================== *)

Section ExporterProperties.

Import History Layout.

Lemma includes_unfold (sub s : string) :
  JS.includes sub s
  = if String.prefix sub s then true
    else match s with
         | EmptyString => false
         | String _ r => JS.includes sub r
         end.
Proof. destruct s; reflexivity. Qed.

Lemma prefix_app (a b : string) : String.prefix a (a ++ b)%string = true.
Proof.
  induction a as [|c a IH]; simpl.
  - now destruct b.
  - destruct (Ascii.ascii_dec c c); [exact IH | congruence].
Qed.

(** [includes] finds every occurrence. *)
Lemma includes_complete (sub s : string) :
  contains sub s -> JS.includes sub s = true.
Proof.
  intros (pre & post & ->).
  induction pre as [|c pre IH].
  - simpl. rewrite includes_unfold, prefix_app. reflexivity.
  - rewrite includes_unfold. simpl String.append.
    destruct (String.prefix sub (String c (pre ++ sub ++ post))); [reflexivity | exact IH].
Qed.

Lemma forEach_render {A} (f : string -> A -> Z -> string) (g : Z -> A -> string) :
  (forall acc x i, f acc x i = (acc ++ g i x)%string) ->
  forall l i acc,
    forEach f l i acc
    = (acc ++ str_concat (map (fun p => g (fst p) (snd p)) (number_from i l)))%string.
Proof.
  intros Hf. induction l as [|x r IH]; intros i acc; simpl.
  - now rewrite str_app_nil_r.
  - rewrite IH, Hf. now rewrite str_app_assoc.
Qed.

Lemma map_number_from {A} (g : A -> string) (l : list A) (i : Z) :
  map (fun p => g (snd p)) (number_from i l) = map g l.
Proof.
  revert i. induction l as [|x r IH]; intros i; simpl; [reflexivity|].
  now rewrite IH.
Qed.

Lemma toUpperCase_role (r : Role) : JS.toUpperCase (Role_value r) = ROLE r.
Proof. destruct r; reflexivity. Qed.

Lemma sources_render (chunks : list GroundingChunk) (acc : string) :
  forEach
    (fun text chunk i =>
       if JS.truthy_opt (chunk_uri chunk)
       then (text ++ "   " ++ JS.toString (i + 1) ++ ". "
               ++ JS.or_else (chunk_uri chunk) "" ++ NL)%string
       else text)
    chunks 0 acc
  = (acc ++ source_lines chunks)%string.
Proof.
  unfold source_lines.
  apply (forEach_render _
           (fun i c => match chunk_uri c with
                       | Some u => if JS.truthy u then source_line (i + 1) u else ""%string
                       | None => ""%string
                       end)).
  intros text c i. unfold JS.truthy_opt, JS.or_else, source_line.
  destruct (chunk_uri c) as [u|]; [destruct (JS.truthy u)|];
    now rewrite ?str_app_nil_r.
Qed.

Lemma message_render (L : Locale) (m : Message) (acc : string) :
  (let text := acc in
   let role := JS.toUpperCase (Role_value (role m)) in
   let time := toLocaleTimeString L (timestamp m) in
   let text := text ++ "[" ++ time ++ "] " ++ role ++ ":" ++ NL in
   let text := text ++ content m ++ NL in
   let text :=
     match attachments m with
     | Some atts =>
         if Z.of_nat (length atts) >? 0
         then text ++ "[Attached " ++ JS.toString (Z.of_nat (length atts))
                   ++ " file(s)]" ++ NL
         else text
     | None => text
     end in
   let text :=
     match groundingMetadata m with
     | Some {| groundingChunks := Some chunks |} =>
         let text := text ++ NL ++ "[Sources Used]:" ++ NL in
         forEach
           (fun text chunk i =>
              if JS.truthy_opt (chunk_uri chunk)
              then text ++ "   " ++ JS.toString (i + 1) ++ ". "
                        ++ JS.or_else (chunk_uri chunk) "" ++ NL
              else text)
           chunks 0 text
     | _ => text
     end in
   text ++ NL ++ "----------------------------------------" ++ NL ++ NL)%string
  = (acc ++ message_block L m)%string.
Proof.
  cbv zeta. unfold message_block, role_line, attachment_note, sources_block, separator.
  rewrite toUpperCase_role.
  destruct (attachments m) as [[|a atts]|].
  - change (Z.of_nat (length (@nil Attachment)) >? 0) with false. cbv beta iota.
    destruct (groundingMetadata m) as [[[chunks|]]|];
      now rewrite ?sources_render, ?str_app_assoc.
  - replace (Z.of_nat (length (a :: atts)) >? 0) with true
      by (symmetry; apply Z.gtb_lt; simpl length; lia).
    cbv beta iota.
    destruct (groundingMetadata m) as [[[chunks|]]|];
      now rewrite ?sources_render, ?str_app_assoc.
  - destruct (groundingMetadata m) as [[[chunks|]]|];
      now rewrite ?sources_render, ?str_app_assoc.
Qed.

Lemma contains_concat (x : string) (l : list string) :
  In x l -> contains x (str_concat l).
Proof.
  induction l as [|y r IH]; simpl; intros H; [destruct H|].
  destruct H as [->|H].
  - apply contains_app_l, contains_refl.
  - apply contains_app_r, IH, H.
Qed.

Lemma nth_number_from {A} (l : list A) (k : nat) (c : A) (i : Z) :
  nth_error l k = Some c -> In (i + Z.of_nat k, c) (number_from i l).
Proof.
  revert k i. induction l as [|x r IH]; intros [|k] i H; simpl in *; try discriminate.
  - injection H as ->. left. f_equal. lia.
  - right. replace (i + Z.pos (Pos.of_succ_nat k)) with ((i + 1) + Z.of_nat k) by lia.
    now apply IH.
Qed.

Lemma source_line_listed (chunks : list GroundingChunk) (k : nat) c u :
  nth_error chunks k = Some c ->
  chunk_uri c = Some u ->
  JS.truthy u = true ->
  contains (source_line (Z.of_nat k + 1) u) (source_lines chunks).
Proof.
  intros Hk Hu Ht. unfold source_lines.
  apply contains_concat. apply in_map_iff.
  exists (0 + Z.of_nat k, c). split.
  - simpl. now rewrite Hu, Ht.
  - now apply nth_number_from.
Qed.

Lemma sessionLog_blocks (L : Locale) (s : ChatSession) :
  sessionLog L s
  = (header L s ++ str_concat (map (message_block L) (messages s)))%string.
Proof.
  unfold sessionLog. cbv zeta.
  rewrite (forEach_render _ (fun _ m => message_block L m)).
  - rewrite (map_number_from (message_block L)).
    unfold header. now rewrite ?str_app_assoc.
  - intros acc m i. apply message_render.
Qed.

Lemma block_in_log (L : Locale) (s : ChatSession) (m : Message) :
  In m (messages s) -> contains (message_block L m) (sessionLog L s).
Proof.
  intros Hm. rewrite sessionLog_blocks.
  apply contains_app_r, contains_concat, in_map, Hm.
Qed.

(** C8 as stated fails: with a grounding list whose first entry has no
    web URI, the only listed source is numbered 2, and no line numbered
    1 is written. *)
Lemma sources_numbered_by_position :
  let m := Examples.message "2" MODEL "yo" 2
             (Some {| groundingChunks :=
                        Some [Examples.bare_chunk; Examples.web_chunk "http://x.com"] |}) in
  let log := sessionLog Examples.locale (Examples.session_of [m]) in
  web_uris [Examples.bare_chunk; Examples.web_chunk "http://x.com"] = ["http://x.com"] /\
  ~ contains "1. http://x.com" log /\
  contains ("   2. http://x.com" ++ NL)%string log.
Proof.
  intros m log. split; [reflexivity|]. split.
  - intros H. apply includes_complete in H. vm_compute in H. discriminate.
  - eapply contains_trans; [|apply (block_in_log _ _ m); now left].
    unfold message_block. do 4 apply contains_app_r. apply contains_app_l.
    apply contains_app_r, contains_app_r, contains_app_r.
    apply (source_line_listed _ 1 (Examples.web_chunk "http://x.com") "http://x.com");
      reflexivity.
Qed.

(** C8 (amended).  The export text is the header followed by one block
    per message, in order.  Each block opens with the line
    "[time] ROLE:" (role in capitals) and the raw content; when the
    message carries a grounding list, the block has a "[Sources Used]:"
    part that lists every entry carrying a non-empty web URI under its
    position in the whole grounding list, counted from 1 (entries without
    a web URI get no line but are counted).  A session with one user
    message and one model message whose single grounding entry has the
    web URI http://x.com gives a text with both role lines and the line
    "   1. http://x.com". *)
Theorem session_log_layout (L : Locale) (s : ChatSession) :
  sessionLog L s
  = (header L s ++ str_concat (map (message_block L) (messages s)))%string /\
  (forall m,
     In m (messages s) ->
     contains (role_line L m ++ content m ++ NL)%string (sessionLog L s) /\
     forall chunks,
       groundingMetadata m = Some {| groundingChunks := Some chunks |} ->
       contains (NL ++ "[Sources Used]:" ++ NL ++ source_lines chunks)%string
         (sessionLog L s) /\
       forall k c u,
         nth_error chunks k = Some c ->
         chunk_uri c = Some u ->
         JS.truthy u = true ->
         contains (source_line (Z.of_nat k + 1) u) (source_lines chunks)) /\
  (forall m1 m2 t,
     messages s = [m1; m2] ->
     role m1 = USER ->
     role m2 = MODEL ->
     groundingMetadata m2
     = Some {| groundingChunks :=
                 Some [{| web := Some {| uri := Some "http://x.com"; web_title := t |} |}] |} ->
     contains ("[" ++ toLocaleTimeString L (timestamp m1) ++ "] USER:" ++ NL)%string
       (sessionLog L s) /\
     contains ("[" ++ toLocaleTimeString L (timestamp m2) ++ "] MODEL:" ++ NL)%string
       (sessionLog L s) /\
     contains ("   1. http://x.com" ++ NL)%string (sessionLog L s)).
Proof.
  assert (Hrole : forall m, In m (messages s) ->
            contains (role_line L m ++ content m ++ NL)%string (sessionLog L s)).
  { intros m Hm. eapply contains_trans; [|apply block_in_log, Hm].
    unfold message_block. rewrite <- !str_app_assoc.
    do 3 apply contains_app_l. rewrite !str_app_assoc. apply contains_refl. }
  assert (Hsrc : forall m chunks, In m (messages s) ->
            groundingMetadata m = Some {| groundingChunks := Some chunks |} ->
            contains (NL ++ "[Sources Used]:" ++ NL ++ source_lines chunks)%string
              (sessionLog L s)).
  { intros m chunks Hm Hg. eapply contains_trans; [|apply block_in_log, Hm].
    unfold message_block, sources_block. rewrite Hg.
    do 4 apply contains_app_r. apply contains_app_l, contains_refl. }
  split; [apply sessionLog_blocks|]. split.
  - intros m Hm. split; [now apply Hrole|].
    intros chunks Hg. split; [now apply (Hsrc m)|].
    intros k c u. apply source_line_listed.
  - intros m1 m2 t Hms H1 H2 Hg.
    assert (In1 : In m1 (messages s)) by (rewrite Hms; now left).
    assert (In2 : In m2 (messages s)) by (rewrite Hms; right; now left).
    split; [|split].
    + eapply contains_trans; [|apply (Hrole m1 In1)].
      unfold role_line. rewrite H1. apply contains_app_l, contains_refl.
    + eapply contains_trans; [|apply (Hrole m2 In2)].
      unfold role_line. rewrite H2. apply contains_app_l, contains_refl.
    + eapply contains_trans; [|apply (Hsrc m2 _ In2 Hg)].
      do 3 apply contains_app_r.
      eapply (source_line_listed _ 0 _ "http://x.com"); reflexivity.
Qed.

Lemma session_log_layout_witness :
  let m1 := Examples.message "1" USER "hi" 1 None in
  let m2 := Examples.message "2" MODEL "yo" 2
              (Some {| groundingChunks := Some [Examples.web_chunk "http://x.com"] |}) in
  let log := sessionLog Examples.locale (Examples.session_of [m1; m2]) in
  contains ("[1] USER:" ++ NL)%string log /\
  contains ("[2] MODEL:" ++ NL)%string log /\
  contains ("   1. http://x.com" ++ NL)%string log.
Proof.
  intros m1 m2 log.
  exact (proj2 (proj2 (session_log_layout Examples.locale (Examples.session_of [m1; m2])))
           m1 m2 None eq_refl eq_refl eq_refl eq_refl).
Defined.

End ExporterProperties.

(* ================================================================== *)
(** * New conversations: the title of the created session             *)
(* ================================================================== *)

Section NewSession.

Import History Obs App.

Lemma newTitle_short (text : string) :
  (String.length text <= 30)%nat -> newTitle text = text.
Proof.
  intros H. unfold newTitle, JS.strlen.
  destruct (Z.gtb_spec (Z.of_nat (String.length text)) 30); [lia | reflexivity].
Qed.

Lemma newTitle_long (text : string) :
  (30 < String.length text)%nat ->
  exists first rest,
    text = (first ++ rest)%string /\ String.length first = 30%nat /\
    newTitle text = (first ++ "...")%string.
Proof.
  intros H. unfold newTitle, JS.strlen, JS.substring0.
  destruct (Z.gtb_spec (Z.of_nat (String.length text)) 30); [|lia].
  destruct (substring_prefix 30 text ltac:(lia)) as (rest & E & Hlen).
  exists (String.substring 0 30 text), rest.
  repeat split; auto.
Qed.

Lemma upserted_has (l0 : list ChatSession) (s : ChatSession) (now : Z) :
  In (with_lastModified s now) (upserted l0 s now).
Proof.
  destruct (upserted_cases l0 s now) as [[_ ->] | (l1 & x & l2 & _ & _ & _ & ->)].
  - now left.
  - apply in_or_app. right. now left.
Qed.

(** C10 (title of a new conversation).  When no session is current, the
    first message creates and saves a session whose title is the text
    itself if the text has at most 30 characters, and otherwise its first
    30 characters followed by "..."; the saved list has an entry with
    the new id and that title, and the new id becomes current. *)
Theorem new_session_title (text : string) (st : state) (w : world) :
  JS.truthy_opt (currentSessionId st) = false ->
  exists st' s,
    fst (handleSendMessage_init text st w) = inr (st', Some s) /\
    ((String.length text <= 30)%nat -> title s = text) /\
    ((30 < String.length text)%nat ->
     exists first rest,
       text = (first ++ rest)%string /\ String.length first = 30%nat /\
       title s = (first ++ "...")%string) /\
    currentSessionId st' = Some (id s) /\
    exists e, In e (sessions st') /\ id e = id s /\ title e = title s.
Proof.
  intros Hnone. unfold handleSendMessage_init. rewrite Hnone. simpl.
  unfold bind at 1. unfold Date_now at 1. simpl.
  unfold bind at 1. unfold Date_now at 1. simpl.
  unfold bind.
  match goal with
  | |- context [saveSession ?s ?w0] =>
      destruct (saveSession_run s w0) as (l0 & w1 & _ & Hval & _);
      destruct (saveSession s w0) as [[e|l] w3]; simpl in Hval; [discriminate|];
      injection Hval as ->
  end.
  simpl. eexists _, _. split; [reflexivity|]. simpl.
  split; [apply newTitle_short|]. split; [apply newTitle_long|].
  split; [reflexivity|].
  eexists. split; [apply upserted_has|]. split; reflexivity.
Qed.

Lemma new_session_title_witness :
  exists st' s,
    fst (handleSendMessage_init "Write a landing page for my sneaker brand"
           {| currentMode := Examples.mode_of GENERAL GEMINI;
              currentProject := None; sessions := []; currentSessionId := None |}
           (Examples.browser None 1000 1))
    = inr (st', Some s) /\
    title s = "Write a landing page for my sn...".
Proof.
  destruct (new_session_title "Write a landing page for my sneaker brand"
              {| currentMode := Examples.mode_of GENERAL GEMINI;
                 currentProject := None; sessions := []; currentSessionId := None |}
              (Examples.browser None 1000 1) eq_refl)
    as (st' & s & Hrun & _ & Hlong & _).
  exists st', s. split; [exact Hrun|].
  vm_compute in Hrun. injection Hrun as _ <-. reflexivity.
Defined.

End NewSession.

(* ================================================================== *)
(** * Session store: what the operations leave alone                   *)
(* ================================================================== *)

Section StoreFrame.

Import History Obs.

Lemma loadSessions_frame (w : world) (k : string) :
  (k =? STORAGE_KEY)%string = false ->
  localStorage (snd (loadSessions w)) k = localStorage w k.
Proof.
  intros Hk. unfold loadSessions, try_catch, bind, getItem.
  destruct (localStorage w STORAGE_KEY) as [[| why | why | l]|]; simpl; try reflexivity.
  destruct (Z.of_nat (length (filter (fun s => clock w (reads w) - lastModified s <? RETENTION_MS) l))
            =? Z.of_nat (length l)); simpl; [reflexivity|].
  now rewrite Hk.
Qed.

Lemma loadSessions_downloads (w : world) :
  downloads (snd (loadSessions w)) = downloads w.
Proof.
  unfold loadSessions, try_catch, bind, getItem.
  destruct (localStorage w STORAGE_KEY) as [[| why | why | l]|]; simpl; try reflexivity.
  destruct (Z.of_nat (length (filter (fun s => clock w (reads w) - lastModified s <? RETENTION_MS) l))
            =? Z.of_nat (length l)); reflexivity.
Qed.

(** X1.  The store operations write under the history key only: every
    other [localStorage] key is left as it was by [list], [save] and
    [delete]; the export writes no key at all. *)
Theorem store_writes_one_key (w : world) (k : string) :
  k <> STORAGE_KEY ->
  localStorage (snd (loadSessions w)) k = localStorage w k /\
  (forall s, localStorage (snd (saveSession s w)) k = localStorage w k) /\
  (forall i, localStorage (snd (deleteSession i w)) k = localStorage w k) /\
  (forall L o k',
     localStorage (snd (downloadSessionAsTxt L o w)) k' = localStorage w k').
Proof.
  intros Hk. apply String.eqb_neq in Hk.
  split; [now apply loadSessions_frame|]. split; [|split].
  - intros s. unfold saveSession, bind.
    pose proof (loadSessions_frame w k Hk) as Hf.
    destruct (loadSessions w) as [[e|l] w1]; simpl in *; [exact Hf|].
    now rewrite Hk.
  - intros i. unfold deleteSession, bind.
    pose proof (loadSessions_frame w k Hk) as Hf.
    destruct (loadSessions w) as [[e|l] w1]; simpl in *; [exact Hf|].
    now rewrite Hk.
  - intros L [s|] k'; reflexivity.
Qed.

Lemma store_writes_one_key_witness :
  let w := {| localStorage := fun k => if (k =? "theme")%string then Some EmptyText
                                       else if (k =? STORAGE_KEY)%string
                                            then Some (SessionsJSON [Examples.session "a" 0])
                                            else None;
              clock := fun _ => 11 * Examples.day; reads := 0;
              console := []; downloads := [] |} in
  localStorage (snd (saveSession (Examples.session "b" 1) w)) "theme" = Some EmptyText.
Proof.
  intros w.
  exact (proj1 (proj2 (store_writes_one_key w "theme" ltac:(discriminate)))
           (Examples.session "b" 1)).
Defined.

Lemma retained_all (now : Z) (l : list ChatSession) :
  forallb (retained now) l = true -> filter (retained now) l = l.
Proof.
  induction l as [|x r IH]; simpl; [reflexivity|].
  intros H. apply andb_true_iff in H. destruct H as [Hx Hr].
  rewrite Hx. now rewrite IH.
Qed.

(** X2.  [list()] rewrites the entry only to drop expired sessions: an
    entry it cannot read is left in place, and so is an array in which
    every session is within retention (in its stored order, not in the
    sorted order that is returned). *)
Theorem list_leaves_entry (w : world) :
  unreadable (stored w) = true \/
  forallb (retained (clock w (reads w))) (sessions_of (stored w)) = true ->
  stored (snd (loadSessions w)) = stored w.
Proof.
  destruct (loadSessions_run w) as (w' & Hrun & _ & _ & _ & Hbad & Hok).
  rewrite Hrun. simpl. intros [Hu | Hall].
  - now apply Hbad.
  - destruct (unreadable (stored w)) eqn:U; [now apply Hbad|].
    rewrite (Hok eq_refl), (retained_all _ _ Hall).
    destruct (stored w) as [[| | |l]|]; simpl in *; try discriminate. reflexivity.
Qed.

Lemma list_leaves_entry_witness :
  let unsorted := Some (SessionsJSON [Examples.session "a" 100; Examples.session "b" 200]) in
  stored (snd (loadSessions (Examples.browser unsorted 1000 1))) = unsorted /\
  stored (snd (loadSessions (Examples.browser (Some (NotJSON "bad")) 1000 1)))
  = Some (NotJSON "bad").
Proof.
  intros unsorted. split.
  - apply (list_leaves_entry (Examples.browser unsorted 1000 1)). right. reflexivity.
  - apply (list_leaves_entry (Examples.browser (Some (NotJSON "bad")) 1000 1)).
    left. reflexivity.
Defined.

(** X3.  [list()] reports to the console exactly the failures of parsing
    and filtering: one entry labelled "Failed to load history:" with the
    exception for text that is not JSON or JSON that is no array;
    nothing for a missing or empty entry or for an array of sessions. *)
Theorem list_logs_failures (w : world) :
  console (snd (loadSessions w))
  = console w ++
    match stored w with
    | Some (NotJSON why) => [("Failed to load history:", JS.SyntaxError why)]
    | Some (NotArray why) => [("Failed to load history:", JS.TypeError why)]
    | _ => []
    end.
Proof.
  unfold loadSessions, try_catch, bind, getItem, stored.
  destruct (localStorage w STORAGE_KEY) as [[| why | why | l]|]; simpl;
    rewrite ?app_nil_r; try reflexivity.
  destruct (Z.of_nat (length (filter (fun s => clock w (reads w) - lastModified s <? RETENTION_MS) l))
            =? Z.of_nat (length l)); reflexivity.
Qed.

End StoreFrame.

(* ================================================================== *)
(** * Session store: how the operations compose                        *)
(* ================================================================== *)

Section SortMore.

Context {A : Type}.
Variable key : A -> Z.

Lemma sort_insert_front (x : A) (l : list A) :
  Forall (fun z => key z <= key x) l ->
  JS.sort_insert (fun a b => key b - key a) x l = x :: l.
Proof.
  intros H. destruct H as [|y r Hy _]; simpl; [reflexivity|].
  destruct (Z.leb_spec (key y - key x) 0); [reflexivity | lia].
Qed.

Lemma sort_insert_filter (p : A -> bool) (x : A) (l : list A) :
  StronglySorted (fun a b => key a >= key b) l ->
  filter p (JS.sort_insert (fun a b => key b - key a) x l)
  = if p x then JS.sort_insert (fun a b => key b - key a) x (filter p l)
    else filter p l.
Proof.
  induction 1 as [|y r Hs IH Hall]; simpl.
  - now destruct (p x).
  - destruct (Z.leb_spec (key y - key x) 0) as [Hle|Hgt]; simpl.
    + destruct (p x) eqn:Px; [|reflexivity].
      symmetry. apply sort_insert_front.
      assert (Hr : Forall (fun z => key z <= key x) (y :: r)).
      { constructor; [lia|]. eapply Forall_impl; [|exact Hall]. simpl. intros; lia. }
      apply Forall_forall. intros z Hz.
      assert (Hz' : In z (y :: r)).
      { change (filter p (y :: r)) with (if p y then y :: filter p r else filter p r) in Hz.
        destruct (p y); [destruct Hz as [<-|Hz]; [now left|]|];
          right; apply filter_In in Hz; tauto. }
      exact (proj1 (Forall_forall _ _) Hr z Hz').
    + rewrite IH. destruct (p x) eqn:Px, (p y) eqn:Py; simpl; try reflexivity.
      destruct (Z.leb_spec (key y - key x) 0); [lia | reflexivity].
Qed.

Lemma sort_filter (p : A -> bool) (l : list A) :
  filter p (JS.sort (fun a b => key b - key a) l)
  = JS.sort (fun a b => key b - key a) (filter p l).
Proof.
  induction l as [|x r IH]; simpl; [reflexivity|].
  rewrite sort_insert_filter by apply sort_sorted.
  destruct (p x); simpl; now rewrite IH.
Qed.

Lemma sort_of_sorted (l : list A) :
  StronglySorted (fun a b => key a >= key b) l ->
  JS.sort (fun a b => key b - key a) l = l.
Proof.
  induction 1 as [|x r Hs IH Hall]; simpl; [reflexivity|].
  rewrite IH. apply sort_insert_front.
  eapply Forall_impl; [|exact Hall]. simpl. intros; lia.
Qed.

Lemma sort_twice (l : list A) :
  JS.sort (fun a b => key b - key a) (JS.sort (fun a b => key b - key a) l)
  = JS.sort (fun a b => key b - key a) l.
Proof. apply sort_of_sorted, sort_sorted. Qed.

End SortMore.

Section StoreComposition.

Import History Obs.

Lemma retained_later (now1 now2 : Z) (l : list ChatSession) :
  now1 <= now2 ->
  filter (retained now2) (filter (retained now1) l) = filter (retained now2) l.
Proof.
  intros Hle. unfold retained.
  induction l as [|x r IH]; simpl; [reflexivity|].
  destruct (Z.ltb_spec (now1 - lastModified x) RETENTION_MS) as [H1|H1]; simpl;
    rewrite IH; [reflexivity|].
  destruct (Z.ltb_spec (now2 - lastModified x) RETENTION_MS); [lia | reflexivity].
Qed.

Lemma listed_from_store (w : world) (l : list ChatSession) (x : ChatSession) :
  fst (loadSessions w) = inr l -> In x l -> In x (sessions_of (stored w)).
Proof.
  destruct (loadSessions_run w) as (w' & Hrun & _).
  rewrite Hrun. simpl. intros E Hx. injection E as <-.
  eapply Permutation_in in Hx; [|apply sort_perm].
  apply filter_In in Hx. tauto.
Qed.

(** X4.  With a clock that never runs backwards, compaction loses
    nothing that is still within retention: a second [list()] returns
    exactly what one [list()] at that later time would have returned on
    the store as it was before the first. *)
Theorem list_twice (w : world) :
  monotone (clock w) ->
  let w1 := snd (loadSessions w) in
  fst (loadSessions w1)
  = inr (JS.sort (fun a b => lastModified b - lastModified a)
           (filter (retained (clock w (reads w1))) (sessions_of (stored w)))).
Proof.
  intros Hmono w1. subst w1.
  destruct (loadSessions_run w) as (w1 & Hrun & Hkept & Hclk & Hreads & _).
  rewrite Hrun. simpl.
  destruct (loadSessions_run w1) as (w2 & Hrun2 & _).
  rewrite Hrun2. simpl. rewrite Hkept, Hclk.
  rewrite retained_later; [reflexivity|]. apply Hmono. lia.
Qed.

Lemma list_twice_witness :
  let w := Examples.browser
             (Some (SessionsJSON [Examples.session "a" 100; Examples.session "c" 0;
                                  Examples.session "b" 200]))
             (10 * Examples.day + 50) 100 in
  fst (loadSessions w) = inr [Examples.session "b" 200; Examples.session "a" 100] /\
  fst (loadSessions (snd (loadSessions w))) = inr [Examples.session "b" 200].
Proof.
  intros w. split; [reflexivity|].
  rewrite (list_twice w); [reflexivity|].
  intros i j Hij. unfold w, Examples.browser. cbn [clock]. lia.
Defined.

(** X5.  [save] and [delete] replace an entry that cannot be read: on a
    missing, empty, non-JSON or non-array entry, [save(S)] returns and
    stores the one-element array of [S] stamped with the clock reading
    [save] takes (the next reading, or the one after it when the entry is
    JSON that is no array, for which the load has already read the
    clock), and [delete] returns and stores the empty array. *)
Theorem mutations_replace_unreadable (w : world) :
  unreadable (stored w) = true ->
  let stamp :=
    clock w (match stored w with
             | Some (NotArray _) => Datatypes.S (reads w)
             | _ => reads w
             end) in
  (forall S,
     fst (saveSession S w) = inr [with_lastModified S stamp] /\
     stored (snd (saveSession S w)) = Some (SessionsJSON [with_lastModified S stamp]) /\
     lastModified (with_lastModified S stamp) = stamp) /\
  (forall i,
     fst (deleteSession i w) = inr [] /\
     stored (snd (deleteSession i w)) = Some (SessionsJSON [])).
Proof.
  intros Hu stamp. subst stamp. split.
  - intros S. revert Hu.
    unfold stored, saveSession, bind, loadSessions, try_catch, bind, getItem.
    destruct (localStorage w STORAGE_KEY) as [[| why | why | l]|]; simpl;
      intros Hu; try discriminate; repeat split; reflexivity.
  - intros i. revert Hu.
    unfold stored, deleteSession, bind, loadSessions, try_catch, bind, getItem.
    destruct (localStorage w STORAGE_KEY) as [[| why | why | l]|]; simpl;
      intros Hu; try discriminate; repeat split; reflexivity.
Qed.

Lemma mutations_replace_unreadable_witness :
  fst (saveSession (Examples.session "a" 7)
         (Examples.browser (Some (NotArray "sessions.filter is not a function")) 1000 1))
  = inr [with_lastModified (Examples.session "a" 7) 1001] /\
  fst (saveSession (Examples.session "a" 7) (Examples.browser (Some (NotJSON "bad")) 1000 1))
  = inr [with_lastModified (Examples.session "a" 7) 1000] /\
  stored (snd (deleteSession "a" (Examples.browser (Some (NotJSON "bad")) 0 1)))
  = Some (SessionsJSON []).
Proof.
  split; [|split].
  - apply (proj1 (mutations_replace_unreadable
                    (Examples.browser (Some (NotArray "sessions.filter is not a function"))
                       1000 1) eq_refl)).
  - apply (proj1 (mutations_replace_unreadable
                    (Examples.browser (Some (NotJSON "bad")) 1000 1) eq_refl)).
  - apply (proj2 (mutations_replace_unreadable
                    (Examples.browser (Some (NotJSON "bad")) 0 1) eq_refl)).
Defined.

(** X6.  [save(S)] touches one entry only: a listed session with another
    id is in the saved list, nothing with another id is added, and the
    list grows by one exactly when no listed session carries the id of
    [S]. *)
Theorem save_keeps_other_sessions (w : world) (S : ChatSession) :
  exists l0 l',
    fst (loadSessions w) = inr l0 /\
    fst (saveSession S w) = inr l' /\
    (forall x, id x <> id S -> (In x l' <-> In x l0)) /\
    length l'
    = if existsb (fun x => (id x =? id S)%string) l0
      then length l0 else Datatypes.S (length l0).
Proof.
  destruct (saveSession_run S w) as (l0 & w1 & Hl & Hval & _).
  exists l0, (upserted l0 S (clock w1 (reads w1))).
  rewrite Hl. split; [reflexivity|]. split; [exact Hval|].
  destruct (upserted_cases l0 S (clock w1 (reads w1)))
    as [[Habs ->] | (l1 & x0 & l2 & -> & Ex & Habs & ->)].
  - split.
    + intros x Hx. simpl. split; [intros [E|H]; [subst x; now destruct Hx | exact H] | auto].
    + replace (existsb (fun x => (id x =? id S)%string) l0) with false; [reflexivity|].
      symmetry. apply not_true_is_false. intros H.
      apply existsb_exists in H. destruct H as (y & Hy & Ey).
      rewrite (proj1 (Forall_forall _ _) Habs y Hy) in Ey. discriminate.
  - split.
    + intros x Hx. rewrite !in_app_iff. simpl.
      split; (intros [H|[E|H]]; [now left | subst x; now destruct Hx | right; now right]).
    + replace (existsb (fun x => (id x =? id S)%string) (l1 ++ x0 :: l2)) with true.
      * rewrite !length_app. reflexivity.
      * symmetry. apply existsb_exists. exists x0. split.
        -- apply in_or_app. right. now left.
        -- now apply String.eqb_eq.
Qed.

End StoreComposition.

Section StoreComposition2.

Import History Obs.

(** X7.  The session saved last is listed first: when every other
    session of the saved list is strictly older than the stamp, a
    [list()] on that store made less than [RETENTION_MS] after the stamp
    returns the saved session at the head. *)
Theorem saved_session_listed_first (w : world) (S : ChatSession) :
  exists now l',
    fst (saveSession S w) = inr l' /\
    In (with_lastModified S now) l' /\
    ((forall x, In x l' -> x = with_lastModified S now \/ lastModified x < now) ->
     forall w2,
       stored w2 = stored (snd (saveSession S w)) ->
       clock w2 (reads w2) - now < RETENTION_MS ->
       exists rest, fst (loadSessions w2) = inr (with_lastModified S now :: rest)).
Proof.
  destruct (saveSession_run S w) as (l0 & w1 & Hl & Hval & Hst & _).
  set (now := clock w1 (reads w1)) in *.
  exists now, (upserted l0 S now).
  split; [exact Hval|]. split; [apply upserted_has|].
  intros Hold w2 Hw2 Hfresh.
  destruct (loadSessions_run w2) as (w3 & Hrun2 & _).
  rewrite Hrun2. simpl. rewrite Hw2, Hst. simpl.
  set (kept := filter (retained (clock w2 (reads w2))) (upserted l0 S now)).
  assert (Hin : In (with_lastModified S now) kept).
  { apply filter_In. split; [apply upserted_has|].
    unfold retained. simpl. now apply Z.ltb_lt. }
  pose proof (sort_perm (fun a b => lastModified b - lastModified a) kept) as Hperm.
  pose proof (sort_sorted lastModified kept) as Hsorted.
  apply (Permutation_in _ (Permutation_sym Hperm)) in Hin.
  destruct (JS.sort (fun a b => lastModified b - lastModified a) kept) as [|h rest];
    [destruct Hin|].
  exists rest. f_equal. f_equal.
  assert (Hh : In h (upserted l0 S now)).
  { assert (In h kept) by (eapply Permutation_in; [exact Hperm | now left]).
    unfold kept in H. apply filter_In in H. tauto. }
  destruct (Hold h Hh) as [E|Hlt]; [exact E|].
  inversion Hsorted as [|? ? _ Hall]; subst.
  destruct Hin as [E|Hrest]; [exact E|].
  pose proof (proj1 (Forall_forall _ _) Hall _ Hrest) as Hge. simpl in Hge. lia.
Qed.

Lemma saved_session_listed_first_witness :
  let w := Examples.browser
             (Some (SessionsJSON [Examples.session "a" 100; Examples.session "b" 200]))
             1000 1 in
  exists rest,
    fst (loadSessions (snd (saveSession (Examples.session "a" 5) w)))
    = inr (with_lastModified (Examples.session "a" 5) 1001 :: rest).
Proof.
  intros w.
  destruct (saved_session_listed_first w (Examples.session "a" 5))
    as (now & l' & Hval & Hin & Hfirst).
  vm_compute in Hval. injection Hval as <-.
  assert (Hnow : now = 1001).
  { destruct Hin as [E|[E|[]]]; [discriminate E | now injection E]. }
  subst now.
  apply Hfirst.
  - intros x [<-|[<-|[]]]; [right; reflexivity | left; reflexivity].
  - reflexivity.
  - vm_compute. reflexivity.
Defined.

(** X8.  A deleted id stays deleted: after [delete(i)], no [list()] on
    the store it left returns a session with id [i], at whatever time it
    is made. *)
Theorem deleted_stays_deleted (w : world) (i : string) (w2 : world) :
  stored w2 = stored (snd (deleteSession i w)) ->
  exists l, fst (loadSessions w2) = inr l /\ ~ In i (map id l).
Proof.
  intros Hw2.
  destruct (deleteSession_run i w) as (l0 & w1 & _ & _ & Hst).
  destruct (loadSessions_run w2) as (w3 & Hrun2 & _).
  rewrite Hrun2. simpl. eexists. split; [reflexivity|].
  rewrite Hw2, Hst. simpl. intros Hin.
  apply in_map_iff in Hin. destruct Hin as (x & Ex & Hx).
  eapply Permutation_in in Hx; [|apply sort_perm].
  apply filter_In in Hx. destruct Hx as [Hx _].
  apply (filter_ids_removed i l0). apply in_map_iff. exists x. tauto.
Qed.

Lemma deleted_stays_deleted_witness :
  let w := Examples.browser
             (Some (SessionsJSON [Examples.session "a" 100; Examples.session "b" 200]))
             1000 1 in
  exists l, fst (loadSessions (snd (deleteSession "a" w))) = inr l /\ ~ In "a" (map id l).
Proof.
  intros w. apply (deleted_stays_deleted w "a"). reflexivity.
Defined.

(** X9.  [delete] undoes [save] of a new id: when no stored session
    carries the id of [S] and the clock never runs backwards,
    [save(S)] followed by [delete(S.id)] returns, and stores, exactly the
    list a [list()] made at the time of the delete would have returned on
    the original store. *)
Theorem save_then_delete (w : world) (S : ChatSession) :
  ~ In (id S) (map id (sessions_of (stored w))) ->
  monotone (clock w) ->
  let w1 := snd (saveSession S w) in
  let listed :=
    JS.sort (fun a b => lastModified b - lastModified a)
      (filter (retained (clock w (reads w1))) (sessions_of (stored w))) in
  fst (deleteSession (id S) w1) = inr listed /\
  stored (snd (deleteSession (id S) w1)) = Some (SessionsJSON listed).
Proof.
  intros Hfresh Hmono w1 listed. subst w1 listed.
  destruct (saveSession_run S w) as (l0 & w1 & Hl & _ & Hst & Hclk & Hreads).
  destruct (loadSessions_run w) as (w1' & Hrun & _ & Hclk1 & Hreads1 & _).
  rewrite Hrun in Hl. injection Hl as <- <-.
  set (w2 := snd (saveSession S w)) in *.
  destruct (deleteSession_run (id S) w2) as (l2 & w3 & Hl2 & Hval2 & Hst2).
  destruct (loadSessions_run w2) as (w3' & Hrun2 & _).
  rewrite Hrun2 in Hl2. injection Hl2 as <- <-.
  rewrite Hval2, Hst2. clear Hval2 Hst2 Hrun2.
  rewrite Hst. simpl sessions_of. rewrite Hclk, Hclk1, Hreads.
  set (now1 := clock w (reads w)) in *.
  set (now2 := clock w (Datatypes.S (reads w1'))).
  set (stamp := clock w (reads w1')).
  set (l0 := JS.sort (fun a b => lastModified b - lastModified a)
               (filter (retained now1) (sessions_of (stored w)))).
  assert (Hperm : Permutation l0 (filter (retained now1) (sessions_of (stored w))))
    by apply sort_perm.
  assert (Habs : ~ In (id S) (map id l0)).
  { intros Hin. apply Hfresh. apply in_map_iff in Hin. destruct Hin as (x & Ex & Hx).
    eapply Permutation_in in Hx; [|exact Hperm]. apply filter_In in Hx.
    apply in_map_iff. exists x. tauto. }
  assert (Hup : upserted l0 S stamp = with_lastModified S stamp :: l0).
  { destruct (upserted_cases l0 S stamp) as [[_ E] | (l1 & x & l2 & E0 & Ex & _ & _)];
      [exact E|].
    exfalso. apply Habs. rewrite E0, map_app. apply in_or_app. right. left. exact Ex. }
  rewrite Hup.
  assert (E : filter (fun s => negb (id s =? id S)%string)
                (JS.sort (fun a b => lastModified b - lastModified a)
                   (filter (retained now2) (with_lastModified S stamp :: l0)))
              = JS.sort (fun a b => lastModified b - lastModified a)
                  (filter (retained now2) (sessions_of (stored w)))).
  { rewrite (sort_filter lastModified).
    assert (E1 : filter (fun s => negb (id s =? id S)%string)
                   (filter (retained now2) (with_lastModified S stamp :: l0))
                 = filter (retained now2) l0).
    { simpl. destruct (retained now2 (with_lastModified S stamp)); simpl;
        rewrite ?String.eqb_refl; simpl; apply filter_ids_absent;
        intros Hin; apply Habs;
        apply in_map_iff in Hin; destruct Hin as (x & Ex & Hx);
        apply filter_In in Hx; apply in_map_iff; exists x; tauto. }
    rewrite E1. unfold l0.
    rewrite (sort_filter lastModified), (sort_twice lastModified).
    f_equal. apply retained_later. apply Hmono. lia. }
  rewrite E. split; reflexivity.
Qed.

Lemma save_then_delete_witness :
  let w := Examples.browser
             (Some (SessionsJSON [Examples.session "a" 100; Examples.session "b" 200]))
             1000 1 in
  fst (deleteSession "n" (snd (saveSession (Examples.session "n" 0) w)))
  = inr [Examples.session "b" 200; Examples.session "a" 100].
Proof.
  intros w.
  refine (proj1 (save_then_delete w (Examples.session "n" 0) _ _)).
  - simpl. intuition discriminate.
  - intros i j Hij. unfold w, Examples.browser. cbn [clock]. lia.
Defined.

End StoreComposition2.

(* ================================================================== *)
(** * Session exporter: the file handed to the user                    *)
(* ================================================================== *)

Section ExportFile.

Import History Shapes.

Lemma sanitized_char (c : ascii) :
  file_name_char
    (JS.lower_char (if JS.is_lower c || JS.is_upper c || JS.is_digit c then c else "_"%char))
  = true.
Proof.
  destruct c as [[] [] [] [] [] [] [] []]; vm_compute; reflexivity.
Qed.

Lemma sanitized_name (s : string) :
  all_chars file_name_char (JS.toLowerCase (sanitize s)) = true /\
  String.length (JS.toLowerCase (sanitize s)) = String.length s.
Proof.
  induction s as [|c r [IH1 IH2]]; simpl; [split; reflexivity|].
  split.
  - rewrite sanitized_char. exact IH1.
  - f_equal. exact IH2.
Qed.

(** X10.  Exporting a session emits exactly one file and changes nothing
    else but the clock reading it takes: the content is the session log,
    and the name is "axora_log_", then the title with every character
    that is no letter or digit replaced by "_" and letters in lower case
    (same length as the title, only characters from a-z, 0-9 and "_"),
    then "_", the clock reading and ".txt".  Exporting no session
    changes nothing. *)
Theorem export_emits_one_file (L : Locale) (w : world) :
  (forall s,
     exists body,
       downloadSessionAsTxt L (Some s) w
       = (inr tt,
          {| localStorage := localStorage w; clock := clock w;
             reads := S (reads w); console := console w;
             downloads :=
               downloads w ++
               [(("axora_log_" ++ body ++ "_" ++ JS.toString (clock w (reads w))
                    ++ ".txt")%string,
                 sessionLog L s)] |}) /\
       all_chars file_name_char body = true /\
       String.length body = String.length (title s)) /\
  downloadSessionAsTxt L None w = (inr tt, w).
Proof.
  split; [|reflexivity].
  intros s. exists (JS.toLowerCase (sanitize (title s))).
  split; [reflexivity | apply sanitized_name].
Qed.

End ExportFile.

(* ================================================================== *)
(** * Context assembler: what a project adds                           *)
(* ================================================================== *)

Section AssemblerMore.

Import Gemini Layout Shapes.

Variable stringify2 : json -> string.

Lemma extends_refl (a : string) : exists rest, a = (a ++ rest)%string.
Proof. exists ""%string. now rewrite str_app_nil_r. Qed.

Lemma extends_app (a b c : string) :
  (exists rest, a = (b ++ rest)%string) ->
  exists rest, (a ++ c)%string = (b ++ rest)%string.
Proof.
  intros (rest & ->). exists (rest ++ c)%string. now rewrite str_app_assoc.
Qed.

Ltac extends := first [ apply extends_refl | apply extends_app; extends ].

(** X11.  A project only appends to the instruction: the instruction
    assembled with a project begins with the instruction assembled
    without one, so the mode line and the persona text are never
    altered by project memory. *)
Theorem project_only_appends (mode : Mode) (p : Project) :
  exists rest,
    constructContextualSystemPrompt stringify2 mode (Some p)
    = (constructContextualSystemPrompt stringify2 mode None ++ rest)%string.
Proof.
  unfold constructContextualSystemPrompt. cbv zeta.
  destruct (modeContext (memory p) (mode_id mode)) as [pm|].
  - destruct (JS.truthy_opt (specificInstructions pm));
      destruct (data pm) as [d|]; try destruct (truthy_json d);
      destruct (JS.truthy_opt (lastState pm)); extends.
  - extends.
Qed.

(** X12.  Falsy fields of a mode-memory entry contribute nothing: an
    empty instruction or state text and a falsy data payload ([null],
    [false], [0], the empty string) give the same instruction as an
    entry without those fields. *)
Theorem falsy_fields_are_skipped (mode : Mode) (p1 p2 : Project) (e : ModeMemory) :
  project_name p1 = project_name p2 ->
  project_description p1 = project_description p2 ->
  sharedContext (memory p1) = sharedContext (memory p2) ->
  modeContext (memory p1) (mode_id mode) = Some e ->
  modeContext (memory p2) (mode_id mode) = Some (without_falsy e) ->
  constructContextualSystemPrompt stringify2 mode (Some p1)
  = constructContextualSystemPrompt stringify2 mode (Some p2).
Proof.
  intros Hn Hd Hs H1 H2. unfold constructContextualSystemPrompt.
  rewrite Hn, Hd, Hs, H1, H2. unfold without_falsy. cbn [lastState specificInstructions data].
  destruct (specificInstructions e) as [si|]; cbn [JS.truthy_opt];
    [destruct (JS.truthy si) eqn:Tsi|];
    (destruct (data e) as [d|]; [destruct (truthy_json d) eqn:Td|]);
    (destruct (lastState e) as [ls|]; cbn [JS.truthy_opt];
     [destruct (JS.truthy ls) eqn:Tls|]);
    cbn [JS.truthy_opt JS.or_else]; rewrite ?Tsi, ?Td, ?Tls; reflexivity.
Qed.

End AssemblerMore.

Lemma falsy_fields_are_skipped_witness :
  let entry text payload :=
    {| Gemini.lastState := text; Gemini.specificInstructions := Some "Be brief.";
       Gemini.data := payload |} in
  let project e :=
    {| Gemini.project_id := "p"; Gemini.project_name := "P";
       Gemini.project_description := "D";
       Gemini.memory :=
         {| Gemini.sharedContext := {| Gemini.summary := "S"; Gemini.keyFacts := [] |};
            Gemini.modeContext := fun _ => Some e |} |} in
  Gemini.constructContextualSystemPrompt Examples.plain_stringify
    (Examples.mode_of EBOOK DEEPSEEK) (Some (project (entry (Some "") (Some (Gemini.JNum 0)))))
  = Gemini.constructContextualSystemPrompt Examples.plain_stringify
      (Examples.mode_of EBOOK DEEPSEEK) (Some (project (entry None None))).
Proof.
  intros entry project.
  apply (falsy_fields_are_skipped Examples.plain_stringify
           (Examples.mode_of EBOOK DEEPSEEK) _ _
           (entry (Some "") (Some (Gemini.JNum 0))));
    reflexivity.
Defined.

(* ================================================================== *)
(** * Provider router: what each provider sends and ignores            *)
(* ================================================================== *)

Section RouterMore.

Import Gemini Obs Shapes.

Variable API_KEY : option string.
Variable GoogleGenAI : string -> Client.

(** X13.  Image generation is single-shot and context-free: for a mode
    whose provider is the image provider, the run (result, calls issued,
    console) is the same whatever the history, the project, the
    attachments and the serializer are; only the message text and the
    image settings matter. *)
Theorem image_mode_ignores_context (mode : Mode) (newMessage : string)
    (imageSettings : option ImageSettings) (w : net)
    (stringify stringify' : json -> string)
    (history history' : list Message) (project project' : option Project)
    (attachments attachments' : list (string * string)) :
  provider mode = FAL_AI ->
  sendMessageToGemini stringify API_KEY GoogleGenAI
    history mode project newMessage attachments imageSettings w
  = sendMessageToGemini stringify' API_KEY GoogleGenAI
      history' mode project' newMessage attachments' imageSettings w.
Proof.
  intros Hp. unfold sendMessageToGemini. rewrite Hp. reflexivity.
Qed.

(** X14.  Search is single-shot: for a mode whose provider is the search
    provider, the run is the same whatever the history, the attachments
    and the image settings are. *)
Theorem search_mode_ignores_history (stringify : json -> string) (mode : Mode)
    (project : option Project) (newMessage : string) (w : net)
    (history history' : list Message)
    (attachments attachments' : list (string * string))
    (imageSettings imageSettings' : option ImageSettings) :
  provider mode = TAVILY ->
  sendMessageToGemini stringify API_KEY GoogleGenAI
    history mode project newMessage attachments imageSettings w
  = sendMessageToGemini stringify API_KEY GoogleGenAI
      history' mode project newMessage attachments' imageSettings' w.
Proof.
  intros Hp. unfold sendMessageToGemini. rewrite Hp. reflexivity.
Qed.

(** X15.  The high-reasoning provider drops attachments: for a mode whose
    provider is the reasoning provider the run is the same whatever the
    attachments and the image settings are; and for the general provider
    it is the same whatever the image settings are. *)
Theorem chat_modes_ignore_settings (stringify : json -> string) (mode : Mode)
    (history : list Message) (project : option Project) (newMessage : string) (w : net)
    (attachments attachments' : list (string * string))
    (imageSettings imageSettings' : option ImageSettings) :
  (provider mode = DEEPSEEK ->
   sendMessageToGemini stringify API_KEY GoogleGenAI
     history mode project newMessage attachments imageSettings w
   = sendMessageToGemini stringify API_KEY GoogleGenAI
       history mode project newMessage attachments' imageSettings' w) /\
  (provider mode = GEMINI ->
   sendMessageToGemini stringify API_KEY GoogleGenAI
     history mode project newMessage attachments imageSettings w
   = sendMessageToGemini stringify API_KEY GoogleGenAI
       history mode project newMessage attachments imageSettings' w).
Proof.
  split; intros Hp; unfold sendMessageToGemini; rewrite Hp; reflexivity.
Qed.

End RouterMore.

Lemma image_mode_ignores_context_witness :
  Gemini.sendMessageToGemini Examples.plain_stringify (Some "k")
    (fun _ => Examples.echo_client "done")
    [Examples.message "1" USER "earlier" 1 None]
    (Examples.mode_of IMAGE_GEN FAL_AI)
    (Some (Examples.project_with "note")) "a red fox" [("image/png", "AAAA")] None
    Examples.quiet
  = Gemini.sendMessageToGemini Examples.plain_stringify (Some "k")
      (fun _ => Examples.echo_client "done")
      [] (Examples.mode_of IMAGE_GEN FAL_AI) None "a red fox" [] None Examples.quiet.
Proof.
  apply image_mode_ignores_context. reflexivity.
Defined.

Lemma search_mode_ignores_history_witness :
  Gemini.sendMessageToGemini Examples.plain_stringify (Some "k")
    (fun _ => Examples.echo_client "done")
    [Examples.message "1" USER "earlier" 1 None]
    (Examples.mode_of MARKET_RESEARCH TAVILY) None "sneaker market"
    [("image/png", "AAAA")] None Examples.quiet
  = Gemini.sendMessageToGemini Examples.plain_stringify (Some "k")
      (fun _ => Examples.echo_client "done")
      [] (Examples.mode_of MARKET_RESEARCH TAVILY) None "sneaker market" [] None
      Examples.quiet.
Proof.
  apply search_mode_ignores_history. reflexivity.
Defined.

Lemma chat_modes_ignore_settings_witness :
  Gemini.sendMessageToGemini Examples.plain_stringify (Some "k")
    (fun _ => Examples.echo_client "done")
    [] (Examples.mode_of EBOOK DEEPSEEK) None "outline" [("image/png", "AAAA")] None
    Examples.quiet
  = Gemini.sendMessageToGemini Examples.plain_stringify (Some "k")
      (fun _ => Examples.echo_client "done")
      [] (Examples.mode_of EBOOK DEEPSEEK) None "outline" [] None Examples.quiet.
Proof.
  apply (proj1 (chat_modes_ignore_settings (Some "k") (fun _ => Examples.echo_client "done")
                  Examples.plain_stringify (Examples.mode_of EBOOK DEEPSEEK)
                  [] None "outline" Examples.quiet [("image/png", "AAAA")] [] None None)).
  reflexivity.
Defined.

Section RouterTrace.

Import Gemini Obs Shapes.

Variable stringify2 : json -> string.
Variable API_KEY : option string.
Variable GoogleGenAI : string -> Client.

Ltac split_run :=
  repeat match goal with
    | |- context [match ?r with inl _ => _ | inr _ => _ end] =>
        match type of r with
        | (JS.exn + _)%type => destruct r eqn:?; simpl
        end
    | |- context [match candidates ?r with _ => _ end] =>
        destruct (candidates r) as [[|? ?]|] eqn:?; simpl
    | |- context [match cand_content ?c with _ => _ end] =>
        destruct (cand_content c) as [?|] eqn:?; simpl
    | |- context [match parts ?c with _ => _ end] =>
        destruct (parts c) as [?|] eqn:?; simpl
    | |- context [if ?b then _ else _] => destruct b eqn:?; simpl
    end.

Ltac last_call :=
  let pre := fresh "pre" in
  let H := fresh "H" in
  intros pre ? ? ? H;
  destruct pre as [|? [|? [|? pre]]]; simpl in H;
  inversion H; subst; try reflexivity; try discriminate;
  match goal with
  | E : [] = _ ++ _ :: _ |- _ => destruct (app_cons_not_nil _ _ _ E)
  end.

Lemma route_trace
    (history : list Message) (mode : Mode) (project : option Project)
    (newMessage : string) (attachments : list (string * string))
    (imageSettings : option ImageSettings) (w : net) :
  JS.truthy_opt API_KEY = true ->
  exists res w' issued,
    sendMessageToGemini stringify2 API_KEY GoogleGenAI
      history mode project newMessage attachments imageSettings w = (inr res, w') /\
    calls w' = calls w ++ issued /\
    (length issued <= 2)%nat /\
    (forall pre q e post, issued = pre ++ (q, Some e) :: post -> post = []) /\
    ((console w' = console w /\ forall q e, ~ In (q, Some e) issued) \/
     (exists e,
        console w' = console w ++ [("API Gateway Error:", e)] /\
        res = text_only (system_error mode e))).
Proof.
  intros Hkey. unfold sendMessageToGemini. rewrite Hkey. simpl.
  unfold try_catch, bind, call, ret, throw, console_error, system_error.
  destruct (provider mode); simpl; split_run;
    (eexists _, _, _; split; [reflexivity|]; simpl;
     split; [rewrite <- ?app_assoc; reflexivity|];
     split; [simpl; lia|];
     split; [last_call|];
     first [ left; split; [reflexivity|];
             intros ? ? Hin; simpl in Hin;
             repeat match goal with
               | H : _ \/ _ |- _ => destruct H
               | H : False |- _ => destruct H
               | H : (_, _) = (_, _) |- _ => discriminate H
               end
           | right; eexists; split; reflexivity ]).
Qed.

End RouterTrace.

Section RouterBehaviour.

Import Gemini Obs Shapes.

Variable stringify2 : json -> string.
Variable API_KEY : option string.
Variable GoogleGenAI : string -> Client.

(** X16.  The router never retries and never fans out: one run issues
    at most two SDK calls (none without a credential), and a call that
    threw is the last one issued. *)
Theorem route_call_budget
    (history : list Message) (mode : Mode) (project : option Project)
    (newMessage : string) (attachments : list (string * string))
    (imageSettings : option ImageSettings) (w : net) :
  let r := sendMessageToGemini stringify2 API_KEY GoogleGenAI
             history mode project newMessage attachments imageSettings w in
  exists issued,
    calls (snd r) = calls w ++ issued /\
    (length issued <= 2)%nat /\
    (forall pre q e post, issued = pre ++ (q, Some e) :: post -> post = []) /\
    (JS.truthy_opt API_KEY = false -> issued = []).
Proof.
  intros r. subst r.
  destruct (JS.truthy_opt API_KEY) eqn:Hkey.
  - destruct (route_trace stringify2 API_KEY GoogleGenAI history mode project newMessage
                attachments imageSettings w Hkey)
      as (res & w' & issued & Hrun & Hcalls & Hlen & Hlast & _).
    rewrite Hrun. simpl. exists issued. repeat split; auto. discriminate.
  - exists []. unfold sendMessageToGemini. rewrite Hkey. simpl.
    rewrite app_nil_r. repeat split; auto.
    intros pre q e post H. destruct (app_cons_not_nil _ _ _ H).
Qed.


(** X18.  A general-mode message with attachments bypasses the chat
    session: the requests issued are the creation of the session and one
    generation request whose parts are the attachments in order followed
    by the message text, never a message sent through the session; with
    no attachment it is the reverse, and the session carries the mapped
    history. *)
Theorem attachments_bypass_chat
    (history : list Message) (mode : Mode) (project : option Project)
    (newMessage : string) (attachments : list (string * string))
    (imageSettings : option ImageSettings) (w : net) :
  provider mode = GEMINI ->
  JS.truthy_opt API_KEY = true ->
  let r := sendMessageToGemini stringify2 API_KEY GoogleGenAI
             history mode project newMessage attachments imageSettings w in
  exists issued,
    calls (snd r) = calls w ++ issued /\
    forall q,
      In q (requests issued) ->
      (exists c, q = ReqCreate c /\ chat_history c = chatHistory_of history) \/
      (attachments <> [] /\
       exists p,
         q = ReqGenerate p /\
         gen_contents p
         = Parts (Some "user")
             (map (fun a => InlinePart (fst a) (snd a)) attachments
              ++ [TextPart newMessage])) \/
      (attachments = [] /\
       exists c, q = ReqSend c newMessage /\ chat_history c = chatHistory_of history).
Proof.
  intros Hp Hkey r. subst r.
  unfold sendMessageToGemini. rewrite Hkey, Hp. simpl.
  unfold try_catch, bind, call, ret, console_error.
  destruct (chats_create _ _) as [e|[]]; simpl.
  - eexists. split; [reflexivity|]. intros q [<-|[]]. left. eexists. split; reflexivity.
  - destruct attachments as [|a atts].
    + simpl. destruct (chat_sendMessage _ _ _) as [e|resp]; simpl;
        (eexists; split; [rewrite <- app_assoc; reflexivity|]);
        intros q [<-|[<-|[]]];
        solve [ left; eexists; split; reflexivity
              | right; right; split; [reflexivity|]; eexists; split; reflexivity ].
    + replace (Z.of_nat (length (a :: atts)) >? 0) with true
        by (symmetry; apply Z.gtb_lt; simpl length; lia).
      destruct (models_generateContent _ _) as [e|resp]; simpl;
        (eexists; split; [rewrite <- app_assoc; reflexivity|]);
        intros q [<-|[<-|[]]];
        solve [ left; eexists; split; reflexivity
              | right; left; split; [discriminate|]; eexists; split; reflexivity ].
Qed.

End RouterBehaviour.

Lemma attachments_bypass_chat_witness :
  let r := Gemini.sendMessageToGemini Examples.plain_stringify (Some "k")
             (fun _ => Examples.echo_client "seen")
             [Examples.message "1" USER "earlier" 1 None]
             (Examples.mode_of GENERAL GEMINI) None "what is this?"
             [("image/png", "AAAA")] None Examples.quiet in
  ~ exists c,
      In (Gemini.ReqSend c "what is this?") (Shapes.requests (Gemini.calls (snd r))).
Proof.
  intros r (c & Hin).
  destruct (attachments_bypass_chat Examples.plain_stringify (Some "k")
              (fun _ => Examples.echo_client "seen")
              [Examples.message "1" USER "earlier" 1 None]
              (Examples.mode_of GENERAL GEMINI) None "what is this?"
              [("image/png", "AAAA")] None Examples.quiet eq_refl eq_refl)
    as (issued & Hcalls & Hshape).
  fold r in Hcalls. rewrite Hcalls in Hin. simpl in Hin.
  destruct (Hshape _ Hin) as [(c' & E & _) | [(_ & p & E & _) | (E & _)]];
    discriminate.
Defined.

Section ImageParts.

Import Gemini Obs Shapes.

Variable stringify2 : json -> string.
Variable API_KEY : option string.
Variable GoogleGenAI : string -> Client.

Lemma last_default {A} (x : A) (l : list A) (d : A) : last (x :: l) d = last l x.
Proof.
  revert x d. induction l as [|y r IH]; intros x d; [reflexivity|].
  change (last (x :: y :: r) d) with (last (y :: r) d).
  rewrite (IH y d), (IH y x). reflexivity.
Qed.

Lemma parts_loop (fmt : string) (ps : list ResponsePart)
    (images : list string) (textResponse : string) :
  fold_left
    (fun st part =>
       match inlineData part with
       | Some d =>
           (fst st ++ [("data:" ++ fmt ++ ";base64," ++ inline_data d)%string], snd st)
       | None =>
           if JS.truthy_opt (part_text part)
           then (fst st, JS.or_else (part_text part) "")
           else st
       end)
    ps (images, textResponse)
  = (images ++ data_uris fmt ps, last (plain_texts ps) textResponse).
Proof.
  revert images textResponse.
  induction ps as [|p r IH]; intros images textResponse; simpl.
  - now rewrite app_nil_r.
  - destruct (inlineData p) as [d|]; simpl.
    + rewrite IH, <- app_assoc. reflexivity.
    + destruct (JS.truthy_opt (part_text p)); simpl.
      * rewrite IH. f_equal. symmetry. apply last_default.
      * apply IH.
Qed.

(** X19.  What the image provider's answer becomes: when the client
    answers and the first candidate has content parts, the images of the
    result are the inline payloads of the parts, in order, as data URIs
    of the requested format (image/png when none is requested), and the
    text is the last non-empty text among the parts without a payload,
    or the "Generated with ..." line naming the aspect ratio (1:1 when
    none is requested) when there is none. *)
Theorem image_parts_extracted
    (history : list Message) (mode : Mode) (project : option Project)
    (newMessage : string) (attachments : list (string * string))
    (imageSettings : option ImageSettings) (w : net)
    (resp : Response) (c : Candidate) (cs : list Candidate)
    (ct : ResponseContent) (ps : list ResponsePart) :
  provider mode = FAL_AI ->
  JS.truthy_opt API_KEY = true ->
  (forall p, models_generateContent (GoogleGenAI (JS.or_else API_KEY "")) p = inr resp) ->
  candidates resp = Some (c :: cs) ->
  cand_content c = Some ct ->
  parts ct = Some ps ->
  fst (sendMessageToGemini stringify2 API_KEY GoogleGenAI
         history mode project newMessage attachments imageSettings w)
  = inr {| res_text :=
             last (plain_texts ps)
               ("Generated with Fal.ai (Nano Banana Pro emulation) in "
                  ++ JS.or_else (option_map aspectRatio imageSettings) "1:1"
                  ++ " ratio:")%string;
           res_images :=
             Some (data_uris (JS.or_else (option_map format imageSettings) "image/png") ps);
           res_groundingMetadata := None |}.
Proof.
  intros Hp Hkey Hresp Hc Hct Hps.
  unfold sendMessageToGemini. rewrite Hkey, Hp. cbn -[String.append].
  unfold try_catch, bind, call, ret. rewrite Hresp. cbn -[String.append].
  rewrite Hc. cbn -[String.append]. rewrite Hct. cbn -[String.append].
  rewrite Hps. cbn -[String.append].
  rewrite parts_loop. reflexivity.
Qed.

End ImageParts.

Lemma image_parts_extracted_witness :
  let part d t := {| Gemini.inlineData := d; Gemini.part_text := t |} in
  let ps := [part None (Some "A fox."); part (Some {| Gemini.inline_data := "AAAA" |}) None;
             part None (Some ""); part (Some {| Gemini.inline_data := "BBBB" |}) (Some "x")] in
  let resp :=
    {| Gemini.candidates :=
         Some [{| Gemini.cand_content := Some {| Gemini.parts := Some ps |};
                  Gemini.cand_groundingMetadata := None |}];
       Gemini.text := None |} in
  let client := {| Gemini.models_generateContent := fun _ => inr resp;
                   Gemini.chats_create := fun _ => inr tt;
                   Gemini.chat_sendMessage := fun _ _ => inr resp |} in
  fst (Gemini.sendMessageToGemini Examples.plain_stringify (Some "k") (fun _ => client)
         [] (Examples.mode_of IMAGE_GEN FAL_AI) None "a red fox" []
         (Some {| Gemini.aspectRatio := "16:9"; Gemini.format := "image/webp" |})
         Examples.quiet)
  = inr {| Gemini.res_text := "A fox.";
           Gemini.res_images := Some ["data:image/webp;base64,AAAA";
                                      "data:image/webp;base64,BBBB"];
           Gemini.res_groundingMetadata := None |}.
Proof.
  intros part ps resp client.
  rewrite (image_parts_extracted Examples.plain_stringify (Some "k") (fun _ => client)
             [] (Examples.mode_of IMAGE_GEN FAL_AI) None "a red fox" []
             (Some {| Gemini.aspectRatio := "16:9"; Gemini.format := "image/webp" |})
             Examples.quiet resp _ [] _ ps eq_refl eq_refl (fun _ => eq_refl)
             eq_refl eq_refl eq_refl).
  reflexivity.
Defined.

(* ================================================================== *)
(** * Component handlers: sessions                                     *)
(* ================================================================== *)

Section SessionHandlers.

Import History Obs Gemini Registry Component.

(** X20.  Loading a session makes it current with its messages and
    restores its mode from the registry, whose entry always exists; the
    project becomes the registry project that carries the session's
    project id when there is one, and is cleared otherwise (no project
    id, or an id the registry does not know). *)
Theorem load_session_restores (session : ChatSession) (st : app) :
  let st' := handleLoadSession session st in
  currentSessionId st' = Some (id session) /\
  st_messages st' = messages session /\
  mode_id (currentMode st') = modeId session /\
  In (currentMode st') MODES /\
  sessions st' = sessions st /\
  (forall p, currentProject st' = Some p ->
             In p MOCK_PROJECTS /\ projectId session = Some (project_id p)) /\
  ((forall p, In p MOCK_PROJECTS -> projectId session <> Some (project_id p)) ->
   currentProject st' = None) /\
  (forall p, In p MOCK_PROJECTS -> projectId session = Some (project_id p) ->
             currentProject st' = Some p).
Proof.
  intros st'. subst st'. unfold handleLoadSession. cbn [currentSessionId st_messages
    currentMode currentProject sessions].
  split; [reflexivity|]. split; [reflexivity|].
  split; [destruct (modeId session); reflexivity|].
  split; [destruct (modeId session); simpl; tauto|].
  split; [reflexivity|]. split; [|split].
  - intros p Hp. apply find_some in Hp. destruct Hp as [Hin Hid].
    split; [exact Hin|]. unfold has_project_id in Hid.
    destruct (projectId session) as [i|]; [|discriminate].
    apply String.eqb_eq in Hid. now rewrite Hid.
  - intros Hnone.
    destruct (find (has_project_id (projectId session)) MOCK_PROJECTS) as [p|] eqn:F;
      [|reflexivity].
    apply find_some in F. destruct F as [Hin Hid]. exfalso.
    apply (Hnone p Hin). unfold has_project_id in Hid.
    destruct (projectId session) as [i|]; [|discriminate].
    apply String.eqb_eq in Hid. now rewrite Hid.
  - intros p Hin Hid. rewrite Hid.
    destruct Hin as [<-|[<-|[]]]; reflexivity.
Qed.

Lemma load_session_restores_witness :
  let s i := {| id := "s9"; title := "Old"; lastModified := 0; messages := [];
                modeId := EBOOK; projectId := Some i |} in
  let st := {| currentMode := mode_GENERAL; currentProject := Some project_p1;
               st_messages := []; isTyping := false; sessions := [];
               currentSessionId := None |} in
  currentProject (handleLoadSession (s "p404") st) = None /\
  currentProject (handleLoadSession (s "p2") st) = Some project_p2 /\
  currentMode (handleLoadSession (s "p404") st) = mode_EBOOK.
Proof.
  intros s st. split; [|split; [|reflexivity]].
  - apply (load_session_restores (s "p404") st).
    intros p [<-|[<-|[]]]; discriminate.
  - apply (load_session_restores (s "p2") st); [right; now left | reflexivity].
Defined.

(** X21.  Deleting a session from the sidebar: the component's list
    becomes what [delete] returned, without the id; when the deleted
    session was the current one the chat is reset (no current session, no
    messages, first registry mode, no project), and otherwise the current
    chat is left as it was. *)
Theorem delete_handler (i : string) (st : app) (w : world) :
  exists l st',
    fst (deleteSession i w) = inr l /\
    handleDeleteSession i st w = (inr st', snd (deleteSession i w)) /\
    sessions st' = l /\
    ~ In i (map id (sessions st')) /\
    (currentSessionId st = Some i ->
     currentSessionId st' = None /\ st_messages st' = [] /\
     currentMode st' = mode_GENERAL /\ currentProject st' = None) /\
    (currentSessionId st <> Some i ->
     currentSessionId st' = currentSessionId st /\
     st_messages st' = st_messages st /\
     currentMode st' = currentMode st /\ currentProject st' = currentProject st).
Proof.
  destruct (deleteSession_run i w) as (l0 & w1 & _ & Hval & _).
  unfold handleDeleteSession, bind.
  destruct (deleteSession i w) as [[e|l] w2]; simpl in Hval; [discriminate|].
  injection Hval as ->. simpl.
  unfold is_current.
  destruct (currentSessionId st) as [c|] eqn:Ec.
  - destruct (String.eqb_spec c i) as [->|Hne].
    + eexists _, _. split; [reflexivity|]. split; [reflexivity|]. simpl.
      split; [reflexivity|]. split; [apply filter_ids_removed|].
      split; [intros _; repeat split | intros H; now destruct H].
    + eexists _, _. split; [reflexivity|]. split; [reflexivity|]. simpl.
      split; [reflexivity|]. split; [apply filter_ids_removed|].
      split; [intros H; injection H as ->; now destruct Hne | intros _; repeat split; auto].
  - eexists _, _. split; [reflexivity|]. split; [reflexivity|]. simpl.
    split; [reflexivity|]. split; [apply filter_ids_removed|].
    split; [discriminate | intros _; repeat split; auto].
Qed.

Lemma delete_handler_witness :
  let w := Examples.browser
             (Some (SessionsJSON [Examples.session "a" 100; Examples.session "b" 200]))
             1000 1 in
  let st := {| currentMode := mode_EBOOK; currentProject := Some project_p1;
               st_messages := [Examples.message "1" USER "hi" 1 None];
               isTyping := false;
               sessions := [Examples.session "b" 200; Examples.session "a" 100];
               currentSessionId := Some "a" |} in
  exists st',
    fst (handleDeleteSession "a" st w) = inr st' /\
    currentSessionId st' = None /\ st_messages st' = [] /\
    sessions st' = [Examples.session "b" 200].
Proof.
  intros w st.
  destruct (delete_handler "a" st w) as (l & st' & Hl & Hrun & Hs & _ & Hcur & _).
  exists st'. rewrite Hrun. split; [reflexivity|].
  destruct (Hcur eq_refl) as (H1 & H2 & _).
  repeat split; auto.
  rewrite Hs. vm_compute in Hl. now injection Hl as <-.
Defined.

End SessionHandlers.

Section PersistEffect.

Import History Obs Gemini Registry Component.

Lemma persist_run (st : app) (w : world) :
  (JS.truthy_opt (currentSessionId st) = false \/ st_messages st = [] \/
   find (fun s => is_current st (id s)) (sessions st) = None ->
   persistEffect st w = (inr st, w)) /\
  (forall x,
     JS.truthy_opt (currentSessionId st) = true ->
     st_messages st <> [] ->
     find (fun s => is_current st (id s)) (sessions st) = Some x ->
     exists st' e,
       fst (persistEffect st w) = inr st' /\
       stored (snd (persistEffect st w)) = Some (SessionsJSON (sessions st')) /\
       In e (sessions st') /\
       currentSessionId st = Some (id e) /\
       title e = title x /\
       messages e = st_messages st /\
       modeId e = mode_id (currentMode st) /\
       projectId e = App.projectId_of (currentProject st) /\
       currentSessionId st' = currentSessionId st /\
       st_messages st' = st_messages st).
Proof.
  split.
  - unfold persistEffect. intros [H|[H|H]].
    + now rewrite H.
    + rewrite H. simpl. now rewrite andb_false_r.
    + rewrite H. now destruct (_ && _).
  - intros x Hid Hmsgs Hfind. unfold persistEffect.
    rewrite Hid, Hfind.
    replace (Z.of_nat (length (st_messages st)) >? 0) with true
      by (symmetry; apply Z.gtb_lt; destruct (st_messages st);
          [now destruct Hmsgs | simpl length; lia]).
    cbn [andb]. unfold bind.
    match goal with
    | |- context [saveSession ?s w] =>
        destruct (saveSession_run s w) as (l0 & w1 & _ & Hval & Hst & _);
        destruct (saveSession s w) as [[e|l] w2]; simpl in Hval, Hst; [discriminate|];
        injection Hval as ->
    end.
    simpl. eexists _, _. split; [reflexivity|]. simpl.
    split; [exact Hst|]. split; [apply upserted_has|]. simpl.
    apply find_some in Hfind. destruct Hfind as [_ Hcur].
    unfold is_current in Hcur.
    destruct (currentSessionId st) as [c|]; [|discriminate].
    apply String.eqb_eq in Hcur. subst c.
    repeat split; reflexivity.
Qed.

(** X22.  The persistence effect saves the current chat under its id:
    when a session is current, there are messages and the component's
    list has the session, the store afterwards (and the component's list)
    holds an entry with that id and title whose messages, mode and
    project are those of the component.  It saves nothing, and leaves
    the store untouched, when there is no current session, when there
    are no messages, or when the component's list lacks the session. *)
Theorem persist_effect (st : app) (w : world) :
  (JS.truthy_opt (currentSessionId st) = false \/ st_messages st = [] \/
   find (fun s => is_current st (id s)) (sessions st) = None ->
   persistEffect st w = (inr st, w)) /\
  (forall x,
     JS.truthy_opt (currentSessionId st) = true ->
     st_messages st <> [] ->
     find (fun s => is_current st (id s)) (sessions st) = Some x ->
     exists st' e,
       fst (persistEffect st w) = inr st' /\
       stored (snd (persistEffect st w)) = Some (SessionsJSON (sessions st')) /\
       In e (sessions st') /\
       currentSessionId st = Some (id e) /\
       title e = title x /\
       messages e = st_messages st /\
       modeId e = mode_id (currentMode st) /\
       projectId e = App.projectId_of (currentProject st) /\
       currentSessionId st' = currentSessionId st /\
       st_messages st' = st_messages st).
Proof. exact (persist_run st w). Qed.

Lemma persist_effect_witness :
  let w := Examples.browser (Some (SessionsJSON [Examples.session "a" 100])) 1000 1 in
  let st := {| currentMode := mode_EBOOK; currentProject := Some project_p1;
               st_messages := [Examples.message "1" USER "hi" 1 None];
               isTyping := false;
               sessions := [Examples.session "a" 100];
               currentSessionId := Some "a" |} in
  (exists st' e,
     fst (persistEffect st w) = inr st' /\ In e (sessions st') /\
     messages e = [Examples.message "1" USER "hi" 1 None] /\ modeId e = EBOOK) /\
  persistEffect
    {| currentMode := mode_EBOOK; currentProject := None;
       st_messages := [Examples.message "1" USER "hi" 1 None]; isTyping := false;
       sessions := []; currentSessionId := Some "a" |} w
  = (inr {| currentMode := mode_EBOOK; currentProject := None;
            st_messages := [Examples.message "1" USER "hi" 1 None]; isTyping := false;
            sessions := []; currentSessionId := Some "a" |}, w).
Proof.
  intros w st. split.
  - destruct (proj2 (persist_effect st w) (Examples.session "a" 100)
                eq_refl ltac:(discriminate) eq_refl)
      as (st' & e & Hrun & _ & Hin & _ & _ & Hm & Hmode & _).
    exists st', e. repeat split; assumption.
  - apply (proj1 (persist_effect _ w)). right. right. reflexivity.
Defined.

End PersistEffect.

(* ================================================================== *)
(** * Component handlers: sending a message                            *)
(* ================================================================== *)

Section SendMessageProperties.

Import History Obs Gemini Registry Component.

Variable stringify2 : json -> string.
Variable API_KEY : option string.
Variable GoogleGenAI : string -> Client.

Lemma toString_truthy (n : Z) : JS.truthy (JS.toString n) = true.
Proof.
  unfold JS.toString, JS.truthy.
  destruct (Z.to_int n) as [d|d]; [destruct d|]; reflexivity.
Qed.

Lemma init_run (text : string) (st0 : App.state) (w : world) :
  exists v w',
    App.handleSendMessage_init text st0 w = (inr v, w') /\
    (JS.truthy_opt (App.currentSessionId st0) = true -> fst v = st0) /\
    (JS.truthy_opt (App.currentSessionId st0) = false ->
     exists i, App.currentSessionId (fst v) = Some i /\ JS.truthy i = true /\
               In i (map id (App.sessions (fst v)))).
Proof.
  unfold App.handleSendMessage_init.
  destruct (JS.truthy_opt (App.currentSessionId st0)) eqn:Hcur; simpl.
  - eexists _, _. split; [reflexivity|]. split; [reflexivity | discriminate].
  - unfold bind at 1. unfold Date_now at 1. simpl.
    unfold bind at 1. unfold Date_now at 1. simpl.
    unfold bind.
    match goal with
    | |- context [saveSession ?s ?w0] =>
        destruct (saveSession_run s w0) as (l0 & w1 & _ & Hval & _);
        destruct (saveSession s w0) as [[e|l] w3]; simpl in Hval; [discriminate|];
        injection Hval as ->
    end.
    eexists _, _. split; [reflexivity|]. split; [discriminate|].
    intros _. simpl. eexists. split; [reflexivity|].
    split; [apply toString_truthy|].
    apply in_map_iff. eexists. split; [|apply upserted_has]. reflexivity.
Qed.

Lemma route_returns
    (history : list Message) (mode : Mode) (project : option Project)
    (newMessage : string) (attachments : list (string * string))
    (imageSettings : option ImageSettings) (w : net) :
  exists res w',
    sendMessageToGemini stringify2 API_KEY GoogleGenAI
      history mode project newMessage attachments imageSettings w = (inr res, w').
Proof.
  destruct (JS.truthy_opt API_KEY) eqn:Hkey.
  - destruct (route_trace stringify2 API_KEY GoogleGenAI history mode project newMessage
                attachments imageSettings w Hkey) as (res & w' & _ & Hrun & _).
    exists res, w'. exact Hrun.
  - unfold sendMessageToGemini. rewrite Hkey. eexists _, _. reflexivity.
Qed.

Lemma send_message_run (text : string) (atts : list Attachment)
    (imageSettings : option ImageSettings) (st : app) (e : env) :
  exists st' userMsg aiMsg res,
    fst (handleSendMessage stringify2 API_KEY GoogleGenAI text atts imageSettings st e)
    = inr st' /\
    st_messages st' = st_messages st ++ [userMsg; aiMsg] /\
    role userMsg = USER /\ content userMsg = text /\ attachments userMsg = Some atts /\
    fst (sendMessageToGemini stringify2 API_KEY GoogleGenAI
           (st_messages st) (currentMode st) (currentProject st) text
           (map (fun a => (att_type a, att_data a)) atts) imageSettings (network e))
    = inr res /\
    role aiMsg = MODEL /\ content aiMsg = res_text res /\
    groundingMetadata aiMsg = res_groundingMetadata res /\
    (msg_type aiMsg = IMAGE <-> res_images res <> None) /\
    isTyping st' = false /\
    currentMode st' = currentMode st /\ currentProject st' = currentProject st /\
    (JS.truthy_opt (currentSessionId st) = true ->
     currentSessionId st' = currentSessionId st /\ sessions st' = sessions st) /\
    (JS.truthy_opt (currentSessionId st) = false ->
     exists i, currentSessionId st' = Some i /\ JS.truthy i = true /\
               In i (map id (sessions st'))).
Proof.
  unfold handleSendMessage.
  unfold bind at 1. unfold in_browser at 1.
  match goal with
  | |- context [App.handleSendMessage_init text ?s0 (browser e)] =>
      destruct (init_run text s0 (browser e)) as (v & w1 & Hinit & Hsame & Hnew);
      rewrite Hinit
  end.
  cbn [fst snd].
  unfold bind at 1. unfold in_browser at 1, Date_now at 1. cbn [fst snd browser network].
  unfold bind at 1. unfold in_browser at 1, Date_now at 1. cbn [fst snd browser network].
  unfold bind at 1. unfold in_network at 1. cbn [fst snd browser network].
  match goal with
  | |- context [sendMessageToGemini stringify2 API_KEY GoogleGenAI ?h ?m ?p ?t ?a ?i ?n] =>
      destruct (route_returns h m p t a i n) as (res & n' & Hroute);
      rewrite Hroute
  end.
  cbn [fst snd].
  unfold bind at 1. unfold in_browser at 1, Date_now at 1. cbn [fst snd browser network].
  unfold bind at 1. unfold in_browser at 1, Date_now at 1. cbn [fst snd browser network].
  unfold ret. cbn [fst snd].
  eexists _, _, _, res. split; [reflexivity|].
  cbn [st_messages isTyping currentMode currentProject currentSessionId sessions
       role content attachments groundingMetadata msg_type].
  split; [now rewrite <- app_assoc|].
  repeat (split; [reflexivity|]).
  split.
  { destruct (res_images res); split; intros H;
      [discriminate | reflexivity | discriminate | now destruct H]. }
  repeat (split; [reflexivity|]).
  split.
  - intros Hcur. rewrite (Hsame Hcur). split; reflexivity.
  - intros Hcur. exact (Hnew Hcur).
Qed.

(** X23.  Sending a message, run without interruption, always completes
    and appends exactly two messages to the chat: the user's, with the
    text and the attachments as given, and the model's, whose content,
    grounding metadata and kind come from the router's result for the
    history as it was before the new message (kind image exactly when
    the result has an image list).  The typing flag is off at the end,
    mode and project are unchanged, and a session is current: the one
    that was, or a new one that is in the component's list. *)
Theorem send_message_appends (text : string) (atts : list Attachment)
    (imageSettings : option ImageSettings) (st : app) (e : env) :
  exists st' userMsg aiMsg res,
    fst (handleSendMessage stringify2 API_KEY GoogleGenAI text atts imageSettings st e)
    = inr st' /\
    st_messages st' = st_messages st ++ [userMsg; aiMsg] /\
    role userMsg = USER /\ content userMsg = text /\ attachments userMsg = Some atts /\
    fst (sendMessageToGemini stringify2 API_KEY GoogleGenAI
           (st_messages st) (currentMode st) (currentProject st) text
           (map (fun a => (att_type a, att_data a)) atts) imageSettings (network e))
    = inr res /\
    role aiMsg = MODEL /\ content aiMsg = res_text res /\
    groundingMetadata aiMsg = res_groundingMetadata res /\
    (msg_type aiMsg = IMAGE <-> res_images res <> None) /\
    isTyping st' = false /\
    currentMode st' = currentMode st /\ currentProject st' = currentProject st /\
    (JS.truthy_opt (currentSessionId st) = true ->
     currentSessionId st' = currentSessionId st /\ sessions st' = sessions st) /\
    (JS.truthy_opt (currentSessionId st) = false ->
     exists i, currentSessionId st' = Some i /\ JS.truthy i = true /\
               In i (map id (sessions st'))).
Proof. exact (send_message_run text atts imageSettings st e). Qed.

End SendMessageProperties.

(* ================================================================== *)
(** * Chat view: mode toggles and the send guard                       *)
(* ================================================================== *)

Section ChatView.

Import Gemini Registry Component Shapes.

(** X24.  The image toggle remembers the mode it leaves: from any mode
    other than the image mode, switching the toggle on enters the image
    mode with the settings panel open, and switching it off again gives
    back the very mode that was left, with the panel closed and nothing
    remembered; the input text and the image settings are untouched. *)
Theorem image_toggle_round_trip (m : Mode) (ui : chat) :
  mode_id m <> IMAGE_GEN ->
  let on := handleImageGenToggle m ui in
  let off := handleImageGenToggle (fst on) (snd on) in
  fst on = mode_IMAGE_GEN /\
  isImageSettingsOpen (snd on) = true /\
  fst off = m /\
  previousMode (snd off) = None /\
  isImageSettingsOpen (snd off) = false /\
  inputText (snd off) = inputText ui /\
  imageSettings (snd off) = imageSettings ui.
Proof.
  intros Hm on off. subst on off. unfold handleImageGenToggle.
  destruct (ModeType_eqb (mode_id m) IMAGE_GEN) eqn:E.
  - destruct (mode_id m); try discriminate. now destruct Hm.
  - cbn. rewrite E. cbn. repeat split; reflexivity.
Qed.

Lemma image_toggle_round_trip_witness :
  let ui := {| inputText := "draft"; previousMode := None; isImageSettingsOpen := false;
               imageSettings := {| aspectRatio := "1:1"; format := "image/png" |} |} in
  fst (handleImageGenToggle (fst (handleImageGenToggle mode_EBOOK ui))
         (snd (handleImageGenToggle mode_EBOOK ui)))
  = mode_EBOOK.
Proof.
  intros ui.
  apply (image_toggle_round_trip mode_EBOOK ui). discriminate.
Defined.

(** X25.  The image toggle without a remembered mode, and the search
    toggle, fall back to the general mode: switching the image toggle
    off when no other mode is remembered gives the first registry mode;
    the search toggle enters the search mode from any other mode and
    leaves it for the general mode, so two presses from any mode but the
    search mode end in the general mode, whatever the mode was. *)
Theorem toggles_fall_back_to_general (m : Mode) (ui : chat) :
  (mode_id m = IMAGE_GEN ->
   (forall p, previousMode ui = Some p -> mode_id p = IMAGE_GEN) ->
   fst (handleImageGenToggle m ui) = mode_GENERAL) /\
  (mode_id m <> MARKET_RESEARCH ->
   handleSearchToggle m = mode_MARKET_RESEARCH /\
   handleSearchToggle (handleSearchToggle m) = mode_GENERAL) /\
  (mode_id m = MARKET_RESEARCH -> handleSearchToggle m = mode_GENERAL).
Proof.
  split; [|split].
  - intros Hm Hprev. unfold handleImageGenToggle. rewrite Hm. cbn.
    destruct (previousMode ui) as [p|]; [|reflexivity].
    rewrite (Hprev p eq_refl). reflexivity.
  - intros Hm.
    assert (E : ModeType_eqb (mode_id m) MARKET_RESEARCH = false)
      by (destruct (mode_id m); try reflexivity; now destruct Hm).
    assert (E1 : handleSearchToggle m = mode_MARKET_RESEARCH)
      by (unfold handleSearchToggle; rewrite E; reflexivity).
    split; [exact E1|]. rewrite E1. reflexivity.
  - intros Hm. unfold handleSearchToggle. rewrite Hm. reflexivity.
Qed.

Lemma toggles_fall_back_to_general_witness :
  handleSearchToggle (handleSearchToggle mode_EBOOK) = mode_GENERAL.
Proof.
  apply (proj1 (proj2 (toggles_fall_back_to_general mode_EBOOK
                         {| inputText := ""; previousMode := None;
                            isImageSettingsOpen := false;
                            imageSettings := {| aspectRatio := "1:1";
                                                format := "image/png" |} |}))).
  discriminate.
Defined.

Lemma trimStart_blank (s : string) :
  all_chars is_space s = true -> trimStart s = ""%string.
Proof.
  induction s as [|c r IH]; simpl; [reflexivity|].
  intros H. apply andb_true_iff in H. destruct H as [Hc Hr].
  rewrite Hc. now apply IH.
Qed.

Lemma trimStart_keeps (s : string) :
  all_chars is_space s = false ->
  exists c r, trimStart s = String c r /\ is_space c = false.
Proof.
  induction s as [|c r IH]; simpl; [discriminate|].
  destruct (is_space c) eqn:Hc; simpl.
  - exact IH.
  - intros _. now exists c, r.
Qed.

Lemma trimEnd_keeps (c : ascii) (r : string) :
  is_space c = false -> trimEnd (String c r) <> ""%string.
Proof. intros Hc. simpl. rewrite Hc. discriminate. Qed.

Lemma trim_blank (s : string) :
  JS.truthy (trim s) = negb (all_chars is_space s).
Proof.
  unfold trim. destruct (all_chars is_space s) eqn:B.
  - now rewrite (trimStart_blank s B).
  - destruct (trimStart_keeps s B) as (c & r & -> & Hc).
    pose proof (trimEnd_keeps c r Hc) as Hne.
    unfold JS.truthy. destruct (trimEnd (String c r)); [now destruct Hne | reflexivity].
Qed.

(** X26.  The send guard: an input made only of white space (or empty)
    is not sent and is left in the box; any other input is sent exactly
    as typed (untrimmed), with no attachment, accompanied by the image
    settings exactly in the image mode, and the box is cleared. *)
Theorem send_guard (m : Mode) (ui : chat) :
  (all_chars is_space (inputText ui) = true -> handleSend m ui = (None, ui)) /\
  (all_chars is_space (inputText ui) = false ->
   exists settings,
     fst (handleSend m ui) = Some (inputText ui, [], settings) /\
     (settings = Some (imageSettings ui) <-> mode_id m = IMAGE_GEN) /\
     (settings = None <-> mode_id m <> IMAGE_GEN) /\
     inputText (snd (handleSend m ui)) = ""%string).
Proof.
  unfold handleSend. rewrite trim_blank. split; intros H; rewrite H; cbn [negb].
  - reflexivity.
  - eexists. split; [reflexivity|]. cbn [snd inputText].
    destruct (mode_id m); cbn; repeat split; intros; try reflexivity;
      try discriminate; try congruence.
Qed.

Lemma send_guard_witness :
  let ui t := {| inputText := t; previousMode := None; isImageSettingsOpen := false;
                 imageSettings := {| aspectRatio := "1:1"; format := "image/png" |} |} in
  let blank := String (ascii_of_nat 32) (String (ascii_of_nat 10) EmptyString) in
  handleSend mode_GENERAL (ui blank) = (None, ui blank) /\
  fst (handleSend mode_GENERAL (ui " hi ")) = Some (" hi ", [], None).
Proof.
  intros ui blank. split.
  - apply (proj1 (send_guard mode_GENERAL (ui blank))). reflexivity.
  - destruct (proj2 (send_guard mode_GENERAL (ui " hi ")) eq_refl)
      as (settings & Hrun & _ & Hnone & _).
    rewrite Hrun. f_equal. f_equal. apply Hnone. discriminate.
Defined.

End ChatView.

(* ================================================================== *)
(** * Sending and persisting together                                  *)
(* ================================================================== *)

Section ChatIsSaved.

Import History Obs Gemini Registry Component.

Variable stringify2 : json -> string.
Variable API_KEY : option string.
Variable GoogleGenAI : string -> Client.

Lemma find_current (st : app) (i : string) :
  currentSessionId st = Some i ->
  In i (map id (sessions st)) ->
  exists x, find (fun s => is_current st (id s)) (sessions st) = Some x.
Proof.
  intros Hcur Hin.
  destruct (find (fun s => is_current st (id s)) (sessions st)) as [x|] eqn:F; [eauto|].
  exfalso. apply in_map_iff in Hin. destruct Hin as (y & Ey & Hy).
  pose proof (find_none _ _ F y Hy) as Hn. simpl in Hn.
  unfold is_current in Hn. rewrite Hcur, Ey, String.eqb_refl in Hn. discriminate.
Qed.

(** X27.  A sent message reaches the store: when the current session,
    if there is one, is in the component's list, sending a message and
    then running the persistence effect leaves in the store an entry
    under the current session id whose messages are the chat with the
    two new messages appended. *)
Theorem chat_is_saved (text : string) (atts : list Attachment)
    (imageSettings : option ImageSettings) (st : app) (e : env) :
  (JS.truthy_opt (currentSessionId st) = true ->
   exists x, find (fun s => is_current st (id s)) (sessions st) = Some x) ->
  let sent := handleSendMessage stringify2 API_KEY GoogleGenAI text atts imageSettings st e in
  exists st' st'' entry,
    fst sent = inr st' /\
    fst (persistEffect st' (browser (snd sent))) = inr st'' /\
    stored (snd (persistEffect st' (browser (snd sent))))
    = Some (SessionsJSON (sessions st'')) /\
    In entry (sessions st'') /\
    currentSessionId st' = Some (id entry) /\
    messages entry = st_messages st' /\
    length (messages entry) = Datatypes.S (Datatypes.S (length (st_messages st))).
Proof.
  intros Hlisted sent. subst sent.
  destruct (send_message_run stringify2 API_KEY GoogleGenAI text atts imageSettings st e)
    as (st' & userMsg & aiMsg & res & Hrun & Hmsgs & _ & _ & _ & _ & _ & _ & _ & _ & _ & _ &
        _ & Hkeep & Hnew).
  rewrite Hrun.
  set (w := browser (snd (handleSendMessage stringify2 API_KEY GoogleGenAI text atts
                            imageSettings st e))).
  assert (Hready : JS.truthy_opt (currentSessionId st') = true /\
                   exists x, find (fun s => is_current st' (id s)) (sessions st') = Some x).
  { destruct (JS.truthy_opt (currentSessionId st)) eqn:Hcur.
    - destruct (Hkeep eq_refl) as [Hc Hs]. destruct (Hlisted eq_refl) as (x & Hx).
      rewrite Hc. split; [exact Hcur|]. exists x.
      unfold is_current. rewrite Hc, Hs. exact Hx.
    - destruct (Hnew eq_refl) as (i & Hc & Ht & Hin).
      split; [rewrite Hc; exact Ht|]. now apply (find_current st' i). }
  destruct Hready as [Ht (x & Hx)].
  assert (Hne : st_messages st' <> []).
  { rewrite Hmsgs. intros E. destruct (app_cons_not_nil _ _ _ (eq_sym E)). }
  destruct (proj2 (persist_run st' w) x Ht Hne Hx)
    as (st'' & entry & Hp & Hst & Hin & Hid & _ & Hm & _).
  exists st', st'', entry.
  split; [reflexivity|]. split; [exact Hp|]. split; [exact Hst|].
  split; [exact Hin|]. split; [exact Hid|]. split; [exact Hm|].
  rewrite Hm, Hmsgs, length_app. simpl. lia.
Qed.

End ChatIsSaved.

Lemma chat_is_saved_witness :
  let st := {| Component.currentMode := Registry.mode_GENERAL;
               Component.currentProject := None;
               Component.st_messages := [];
               Component.isTyping := false;
               Component.sessions := [];
               Component.currentSessionId := None |} in
  let e := {| Component.browser := Examples.browser None 1000 1;
              Component.network := Examples.quiet |} in
  let sent := Component.handleSendMessage Examples.plain_stringify (Some "k")
                (fun _ => Examples.echo_client "hello back") "hello" [] None st e in
  exists st' st'' entry,
    fst sent = inr st' /\
    fst (Component.persistEffect st' (Component.browser (snd sent))) = inr st'' /\
    In entry (Component.sessions st'') /\ length (messages entry) = 2%nat.
Proof.
  intros st e sent.
  destruct (chat_is_saved Examples.plain_stringify (Some "k")
              (fun _ => Examples.echo_client "hello back") "hello" [] None st e)
    as (st' & st'' & entry & H1 & H2 & _ & H4 & _ & _ & H7).
  - discriminate.
  - exists st', st'', entry. repeat split; assumption.
Defined.
